(** * Timecard aggregation and overtime computation

    A shallow embedding of the computational core of
    [src/screens/TimecardHistoryScreen.js]: the period/search filter
    ([filterTimecards]), the hours summary ([calculateSummary]), the
    day-grouped view ([getTimecardsByDate]), the status chip
    ([getStatusChip]) and the submit button with its handler
    ([submitForApproval]).

    Modelling conventions.
    - JavaScript numbers that hold hours are exact rationals ([Q]); IEEE-754
      rounding, [NaN] and infinities of hour values are not modelled.
    - Instants (the value of a [Date]) are integers, milliseconds since the
      epoch ([Z]).  An event's [timestamp] is held as the instant that
      [new Date(tc.timestamp)] denotes.
    - An event's [date] is the string the code uses as an object key; the
      two parsers the code applies to it ([parseISO] of date-fns and the
      [Date] constructor) belong to the environment and are taken through
      the interface [DateApi]; [None] stands for an invalid date.
    - Strings are [string]s of 8-bit characters, [toLowerCase] folds the
      letters A-Z.
    - A JavaScript object used as a map from date strings to arrays is an
      association list in insertion order, which is the order [Object.keys]
      reports for keys that are not array indices; a date string is taken
      not to name a property that objects inherit.
    - [Array.prototype.sort] is the stable sort of the language standard. *)

From Stdlib Require Import QArith Qabs Lqa ZArith List String Ascii Bool Lia.
From Stdlib Require Import Permutation Sorted Morphisms RelationClasses.
From Stdlib Require Import Qround DecimalString.
Import ListNotations.

Local Open Scope Q_scope.

(** ** Data model *)

Record Job := { job_name : string }.
Record Task := { task_name : string }.

(** One clock event ([tc] in the source). [job] and [task] may be absent. *)
Record ClockEvent := {
  id : string;
  date : string;
  timestamp : Z;
  type : string;
  job : option Job;
  task : option Task;
  status : string
}.

(** The [summary] state of the screen, also the shape of a per-day
    breakdown. *)
Record Summary := {
  totalHours : Q;
  regularHours : Q;
  overtimeHours : Q;
  doubleTimeHours : Q
}.

(** Bucket-wise equality of rationals. *)
Definition Summary_eq (a b : Summary) : Prop :=
  totalHours a == totalHours b /\
  regularHours a == regularHours b /\
  overtimeHours a == overtimeHours b /\
  doubleTimeHours a == doubleTimeHours b.

Infix "=s=" := Summary_eq (at level 70, no associativity).

(** ** Overtime classification ([calculateSummary], lines 111-131) *)

(** The JavaScript comparison [x > y] on hour values. *)
Definition gtb (x y : Q) : bool := negb (Qle_bool x y).

(** The four accumulators as [calculateSummary] initialises them. *)
Definition initialSummary : Summary :=
  {| totalHours := 0; regularHours := 0; overtimeHours := 0; doubleTimeHours := 0 |}.

(** The body of the [forEach] over the days, once [dayHours] is known:
    the total is increased, then exactly the buckets of the tier that
    [dayHours] falls in. *)
Definition accumulateDay (acc : Summary) (dayHours : Q) : Summary :=
  let total := totalHours acc + dayHours in
  if gtb dayHours 12 then
    {| totalHours := total;
       regularHours := regularHours acc + 8;
       overtimeHours := overtimeHours acc + 4;
       doubleTimeHours := doubleTimeHours acc + (dayHours - 12) |}
  else if gtb dayHours 8 then
    {| totalHours := total;
       regularHours := regularHours acc + 8;
       overtimeHours := overtimeHours acc + (dayHours - 8);
       doubleTimeHours := doubleTimeHours acc |}
  else
    {| totalHours := total;
       regularHours := regularHours acc + dayHours;
       overtimeHours := overtimeHours acc;
       doubleTimeHours := doubleTimeHours acc |}.

(** The breakdown of a single day: what the loop body leaves in the fresh
    accumulators after one day of [h] hours. *)
Definition classify (h : Q) : Summary := accumulateDay initialSummary h.

(** The summary of a sequence of day totals, in iteration order. *)
Definition sumDays (hours : list Q) : Summary :=
  fold_left accumulateDay hours initialSummary.

(** ** Strings ([toLowerCase], [includes]) *)

Local Open Scope string_scope.
Local Open Scope list_scope.

Definition lowerChar (c : ascii) : ascii :=
  let n := nat_of_ascii c in
  if ((65 <=? n) && (n <=? 90))%nat then ascii_of_nat (n + 32) else c.

Fixpoint toLowerCase (s : string) : string :=
  match s with
  | EmptyString => EmptyString
  | String c s' => String (lowerChar c) (toLowerCase s')
  end.

(** [startsWith s q]: [q] occurs in [s] at position 0. *)
Fixpoint startsWith (s q : string) {struct q} : bool :=
  match q, s with
  | EmptyString, _ => true
  | String _ _, EmptyString => false
  | String b q', String a s' => Ascii.eqb a b && startsWith s' q'
  end.

(** [s.includes(q)]: [q] occurs in [s] at some position. *)
Fixpoint includes (s q : string) : bool :=
  startsWith s q ||
  match s with
  | EmptyString => false
  | String _ s' => includes s' q
  end.

(** Truthiness of a JavaScript string: only the empty string is falsy. *)
Definition truthy (s : string) : bool :=
  match s with EmptyString => false | String _ _ => true end.

(** ** Dates of the environment *)

(** What the screen takes from date-fns and from the [Date] constructor.
    [parseISO] and [newDate] give the instant a date string denotes, [None]
    for an invalid date; the four bounds map the instant [now] to the first
    and last instant of its calendar week and month. *)
Class DateApi := {
  parseISO : string -> option Z;
  newDate : string -> option Z;
  startOfWeek : Z -> Z;
  endOfWeek : Z -> Z;
  startOfMonth : Z -> Z;
  endOfMonth : Z -> Z
}.

(** The value of the period selector ([periodButtons]). *)
Inductive Period := week | month | all.

(** ** The service the screen calls *)

(** An error thrown by the service, as the handler reads it. *)
Record Error := { message : string }.

(** [TimeclockService] as the screen uses it: a store of events behind
    [getTimecards], the hours of one day's events, and the submission of a
    date, which either throws ([inl]) or leaves a new store ([inr]). *)
Class TimeclockService := {
  Store : Type;
  getTimecards : Store -> list ClockEvent;
  calculateDayHours : list ClockEvent -> Q;
  submitForApproval : Store -> string -> Error + Store
}.

(** ** Period and search filter ([filterTimecards], lines 59-99) *)

Section Filter.
Context {api : DateApi}.

(** The [switch]: [startDate] and [endDate], [None] when both are null. *)
Definition periodRange (now : Z) (selectedPeriod : Period) : option (Z * Z) :=
  match selectedPeriod with
  | week => Some (startOfWeek now, endOfWeek now)
  | month => Some (startOfMonth now, endOfMonth now)
  | all => None
  end.

(** [tcDate >= startDate && tcDate <= endDate]; a comparison with an
    invalid date is false. *)
Definition inRange (startDate endDate : Z) (tc : ClockEvent) : bool :=
  match parseISO (date tc) with
  | Some tcDate => (startDate <=? tcDate)%Z && (tcDate <=? endDate)%Z
  | None => false
  end.

(** The search predicate of lines 90-94. *)
Definition matchesQuery (searchQuery : string) (tc : ClockEvent) : bool :=
  match job tc with
  | Some j => includes (toLowerCase (job_name j)) (toLowerCase searchQuery)
  | None => false
  end
  || match task tc with
     | Some t => includes (toLowerCase (task_name t)) (toLowerCase searchQuery)
     | None => false
     end
  || includes (toLowerCase (type tc)) (toLowerCase searchQuery).

(** The value of [filtered] when [filterTimecards] stores it. *)
Definition filtered (now : Z) (selectedPeriod : Period) (searchQuery : string)
    (timecards : list ClockEvent) : list ClockEvent :=
  let filtered := timecards in
  let filtered :=
    match periodRange now selectedPeriod with
    | Some (startDate, endDate) => filter (inRange startDate endDate) filtered
    | None => filtered
    end in
  if truthy searchQuery then filter (matchesQuery searchQuery) filtered
  else filtered.
End Filter.

(** ** Grouping by date *)

(** [grouped[key].push(tc)], creating the array when the key is new. A new
    key goes last, as in the key order of a JavaScript object. *)
Fixpoint push (key : string) (tc : ClockEvent)
    (grouped : list (string * list ClockEvent)) : list (string * list ClockEvent) :=
  match grouped with
  | [] => [(key, [tc])]
  | (k, tcs) :: rest =>
      if String.eqb k key then (k, tcs ++ [tc]) :: rest
      else (k, tcs) :: push key tc rest
  end.

(** The [forEach] that fills [dailyHours] (lines 103-109) and [grouped]
    (lines 195-201). *)
Definition groupByDate (timecards : list ClockEvent) : list (string * list ClockEvent) :=
  fold_left (fun grouped tc => push (date tc) tc grouped) timecards [].

(** [Object.keys(grouped)]. *)
Definition keys (grouped : list (string * list ClockEvent)) : list string :=
  map fst grouped.

(** [grouped[key]] for a key of the object. *)
Fixpoint get (grouped : list (string * list ClockEvent)) (key : string) : list ClockEvent :=
  match grouped with
  | [] => []
  | (k, tcs) :: rest => if String.eqb k key then tcs else get rest key
  end.

(** ** [Array.prototype.sort] *)

(** A comparator returns a number, [None] for [NaN]; [sort] reads [NaN] as
    0.  The sort is stable: [insertBy] puts [x], which stood before all of
    [l], in front of the first element it does not compare greater than. *)
Definition notAfter (c : option Z) : bool :=
  match c with Some v => (v <=? 0)%Z | None => true end.

Fixpoint insertBy {A} (cmp : A -> A -> option Z) (x : A) (l : list A) : list A :=
  match l with
  | [] => [x]
  | y :: l' => if notAfter (cmp x y) then x :: l else y :: insertBy cmp x l'
  end.

Definition sortBy {A} (cmp : A -> A -> option Z) (l : list A) : list A :=
  fold_right (insertBy cmp) [] l.

(** Subtraction of two [Date]s; an invalid date makes it [NaN]. *)
Definition dateMinus (a b : option Z) : option Z :=
  match a, b with
  | Some x, Some y => Some (x - y)%Z
  | _, _ => None
  end.

(** ** Summary ([calculateSummary], lines 101-139) *)

Section Summary.
Context {svc : TimeclockService}.

(** The second [forEach]: one [accumulateDay] per key of [dailyHours]. *)
Definition summarise (dailyHours : list (string * list ClockEvent)) : Summary :=
  fold_left (fun acc d => accumulateDay acc (calculateDayHours (get dailyHours d)))
            (keys dailyHours) initialSummary.

(** The object passed to [setSummary]. *)
Definition calculateSummary (timecards : list ClockEvent) : Summary :=
  summarise (groupByDate timecards).
End Summary.

(** ** Day view ([getTimecardsByDate], lines 194-211) *)

(** One element of the array [getTimecardsByDate] returns. *)
Record WorkDay := {
  day_date : string;
  day_timecards : list ClockEvent;
  day_totalHours : Q
}.

Section DayView.
Context {api : DateApi} {svc : TimeclockService}.

(** [(a, b) => new Date(b) - new Date(a)]. *)
Definition byDateDesc (a b : string) : option Z :=
  dateMinus (newDate b) (newDate a).

(** [(a, b) => new Date(a.timestamp) - new Date(b.timestamp)]. *)
Definition byTimestamp (a b : ClockEvent) : option Z :=
  Some (timestamp a - timestamp b)%Z.

(** [grouped[date].sort(...)] sorts the array in place and returns it, so
    [calculateDayHours(grouped[date])] in the next property of the object
    literal receives the sorted events. *)
Definition workDay (grouped : list (string * list ClockEvent)) (d : string) : WorkDay :=
  let sorted := sortBy byTimestamp (get grouped d) in
  {| day_date := d;
     day_timecards := sorted;
     day_totalHours := calculateDayHours sorted |}.

Definition getTimecardsByDate (filteredTimecards : list ClockEvent) : list WorkDay :=
  let grouped := groupByDate filteredTimecards in
  let sortedDates := sortBy byDateDesc (keys grouped) in
  map (workDay grouped) sortedDates.
End DayView.

(** ** Screen state *)

Record Screen := {
  timecards : list ClockEvent;
  filteredTimecards : list ClockEvent;
  searchQuery : string;
  selectedPeriod : Period;
  summary : Summary
}.

Section ScreenOps.
Context {api : DateApi} {svc : TimeclockService}.

(** [filterTimecards] at the instant [now]: stores the filtered events and
    the summary computed from them. *)
Definition filterTimecards (now : Z) (st : Screen) : Screen :=
  let f := filtered now (selectedPeriod st) (searchQuery st) (timecards st) in
  {| timecards := timecards st;
     filteredTimecards := f;
     searchQuery := searchQuery st;
     selectedPeriod := selectedPeriod st;
     summary := calculateSummary f |}.

(** [dailyTimecards], computed on every render. *)
Definition dailyTimecards (st : Screen) : list WorkDay :=
  getTimecardsByDate (filteredTimecards st).
End ScreenOps.

(** ** Status chip and submit button (lines 233-244, 325-334) *)

Inductive Chip := Approved | PendingApproval | Draft.

Definition hasStatus (s : string) (tc : ClockEvent) : bool := String.eqb (status tc) s.

Definition getStatusChip (timecards : list ClockEvent) : Chip :=
  let hasSubmitted := existsb (hasStatus "submitted") timecards in
  let hasApproved := existsb (hasStatus "approved") timecards in
  if hasApproved then Approved
  else if hasSubmitted then PendingApproval
  else Draft.

(** The [disabled] property of the Submit button of a day card. *)
Definition submitDisabled (timecards : list ClockEvent) : bool :=
  existsb (fun tc => hasStatus "submitted" tc || hasStatus "approved" tc) timecards.

(** ** Submit handler ([submitForApproval], lines 180-188) *)

Inductive Alert :=
| AlertSuccess (text : string)
| AlertError (text : string).

Section Submit.
Context {svc : TimeclockService}.

(** The [onPress] of the dialog's Submit button, on the store [db] and
    the events the screen holds: the alert shown, the store afterwards and
    the events afterwards (reloaded after a success only). *)
Definition onPressSubmit (db : Store) (loaded : list ClockEvent) (d : string)
    : Alert * Store * list ClockEvent :=
  match submitForApproval db d with
  | inr db' =>
      (AlertSuccess "Timecard submitted for approval", db', getTimecards db')
  | inl error =>
      (AlertError (if truthy (message error) then message error
                   else "Failed to submit for approval"),
       db, loaded)
  end.
End Submit.

(** ** The hours of one day *)

(** Modelled from the spec: [TimeclockService.calculateDayHours] is not among
    the sources.  The spec (4.2) has the events scanned in the order given
    with a "currently clocked in" flag and a "currently on lunch" flag, the
    elapsed time accumulated from a [clock_in] or [lunch_in] to the next
    [lunch_out] or [clock_out]; an event that does not fit the flags is
    ignored, and nothing is added for a span left open at the end. *)
Record Scan := {
  clockedIn : bool;
  onLunch : bool;
  resumedAt : Z;
  workedMs : Z
}.

(** Modelled from the spec: both flags are down before the first event. *)
Definition scanStart : Scan :=
  {| clockedIn := false; onLunch := false; resumedAt := 0; workedMs := 0 |}.

(** Modelled from the spec: one step of the scan.  [clock_in] starts a span
    unless one is open; [lunch_out] and [clock_out] add the time since the
    last resumption when the clock is running; [lunch_in] resumes after a
    lunch; a [clock_out] during lunch adds nothing more. *)
Definition scanEvent (st : Scan) (tc : ClockEvent) : Scan :=
  if String.eqb (type tc) "clock_in" then
    if clockedIn st then st
    else {| clockedIn := true; onLunch := false;
            resumedAt := timestamp tc; workedMs := workedMs st |}
  else if String.eqb (type tc) "lunch_out" then
    if clockedIn st && negb (onLunch st)
    then {| clockedIn := true; onLunch := true; resumedAt := resumedAt st;
            workedMs := workedMs st + (timestamp tc - resumedAt st) |}
    else st
  else if String.eqb (type tc) "lunch_in" then
    if clockedIn st && onLunch st
    then {| clockedIn := true; onLunch := false;
            resumedAt := timestamp tc; workedMs := workedMs st |}
    else st
  else if String.eqb (type tc) "clock_out" then
    if clockedIn st
    then {| clockedIn := false; onLunch := false; resumedAt := resumedAt st;
            workedMs := if onLunch st then workedMs st
                        else workedMs st + (timestamp tc - resumedAt st) |}
    else st
  else st.

Definition msPerHour : positive := 3600000.

(** Modelled from the spec: the worked milliseconds of the scan, in hours. *)
Definition spec_calculateDayHours (events : list ClockEvent) : Q :=
  Qmake (workedMs (fold_left scanEvent events scanStart)) msPerHour.

(** ** Submission *)

(** Modelled from the spec: [TimeclockService.submitForApproval] is not among
    the sources.  The spec (4.6, 6) permits the submission of a date only
    when no event of that date is already submitted or approved, reports
    the failure "already submitted" otherwise, and has a permitted
    submission take the events of the date to [submitted]. *)
Definition submitted_or_approved (tc : ClockEvent) : bool :=
  hasStatus "submitted" tc || hasStatus "approved" tc.

(** Modelled from the spec: the transition guard of 4.6. *)
Definition spec_guard (db : list ClockEvent) (d : string) : bool :=
  negb (existsb (fun tc => String.eqb (date tc) d && submitted_or_approved tc) db).

(** Modelled from the spec: the transition to [submitted], as a new record. *)
Definition markSubmitted (d : string) (tc : ClockEvent) : ClockEvent :=
  if String.eqb (date tc) d then
    {| id := id tc; date := date tc; timestamp := timestamp tc; type := type tc;
       job := job tc; task := task tc; status := "submitted" |}
  else tc.

(** Modelled from the spec: [submitForApproval(date) -> success | failure]. *)
Definition spec_submitForApproval (db : list ClockEvent) (d : string)
    : Error + list ClockEvent :=
  if spec_guard db d then inr (map (markSubmitted d) db)
  else inl {| message := "already submitted" |}.

(** Modelled from the spec: the service, its store being the list of
    events. *)
Definition specService : TimeclockService :=
  {| Store := list ClockEvent;
     getTimecards := fun db => db;
     calculateDayHours := spec_calculateDayHours;
     submitForApproval := spec_submitForApproval |}.

(** ** A calendar for the examples *)

(** An instance of [DateApi] in UTC: dates are written [YYYY-MM-DD], a week
    runs from Sunday to Saturday.  The theorems hold for every instance;
    this one makes the examples run. *)
Definition msPerDay : Z := 86400000.

Definition daysFromCivil (y m d : Z) : Z :=
  let y' := if (m <=? 2)%Z then (y - 1)%Z else y in
  let era := (y' / 400)%Z in
  let yoe := (y' - era * 400)%Z in
  let mp := if (m <=? 2)%Z then (m + 9)%Z else (m - 3)%Z in
  let doy := ((153 * mp + 2) / 5 + d - 1)%Z in
  let doe := (yoe * 365 + yoe / 4 - yoe / 100 + doy)%Z in
  (era * 146097 + doe - 719468)%Z.

Definition civilFromDays (z : Z) : Z * Z * Z :=
  let z' := (z + 719468)%Z in
  let era := (z' / 146097)%Z in
  let doe := (z' - era * 146097)%Z in
  let yoe := ((doe - doe / 1460 + doe / 36524 - doe / 146096) / 365)%Z in
  let doy := (doe - (365 * yoe + yoe / 4 - yoe / 100))%Z in
  let mp := ((5 * doy + 2) / 153)%Z in
  let d := (doy - (153 * mp + 2) / 5 + 1)%Z in
  let m := if (mp <? 10)%Z then (mp + 3)%Z else (mp - 9)%Z in
  let y := (yoe + era * 400)%Z in
  (if (m <=? 2)%Z then (y + 1)%Z else y, m, d).

Definition digit (c : ascii) : option Z :=
  let n := nat_of_ascii c in
  if ((48 <=? n) && (n <=? 57))%nat then Some (Z.of_nat (n - 48)) else None.

Definition number (cs : list ascii) : option Z :=
  fold_left (fun acc c =>
               match acc, digit c with
               | Some a, Some v => Some (10 * a + v)%Z
               | _, _ => None
               end) cs (Some 0%Z).

(** The day number of a date string, [None] unless it is a date of the
    calendar written [YYYY-MM-DD]. *)
Definition utcDay (s : string) : option Z :=
  match list_ascii_of_string s with
  | [y1; y2; y3; y4; "-"%char; m1; m2; "-"%char; d1; d2] =>
      match number [y1; y2; y3; y4], number [m1; m2], number [d1; d2] with
      | Some y, Some m, Some d =>
          let z := daysFromCivil y m d in
          match civilFromDays z with
          | (y', m', d') =>
              if (y' =? y)%Z && (m' =? m)%Z && (d' =? d)%Z then Some z else None
          end
      | _, _, _ => None
      end
  | _ => None
  end.

Definition utcMidnight (s : string) : option Z :=
  option_map (fun z => (z * msPerDay)%Z) (utcDay s).

Definition utcStartOfWeek (now : Z) : Z :=
  let day := (now / msPerDay)%Z in
  ((day - (day + 4) mod 7) * msPerDay)%Z.

Definition utcEndOfWeek (now : Z) : Z :=
  (utcStartOfWeek now + 7 * msPerDay - 1)%Z.

Definition utcStartOfMonth (now : Z) : Z :=
  match civilFromDays (now / msPerDay) with
  | (y, m, _) => (daysFromCivil y m 1 * msPerDay)%Z
  end.

Definition utcEndOfMonth (now : Z) : Z :=
  match civilFromDays (now / msPerDay) with
  | (y, m, _) =>
      let first := if (m =? 12)%Z then daysFromCivil (y + 1) 1 1
                   else daysFromCivil y (m + 1) 1 in
      (first * msPerDay - 1)%Z
  end.

Definition utcDates : DateApi :=
  {| parseISO := utcMidnight;
     newDate := utcMidnight;
     startOfWeek := utcStartOfWeek;
     endOfWeek := utcEndOfWeek;
     startOfMonth := utcStartOfMonth;
     endOfMonth := utcEndOfMonth |}.

(** ** Notions used to state the properties *)

(** The buckets of a summary add up to its total. *)
Definition balanced (s : Summary) : Prop :=
  totalHours s == regularHours s + overtimeHours s + doubleTimeHours s.

(** Bucket-wise sum of two breakdowns, and of a list of them. *)
Definition addSummary (a b : Summary) : Summary :=
  {| totalHours := totalHours a + totalHours b;
     regularHours := regularHours a + regularHours b;
     overtimeHours := overtimeHours a + overtimeHours b;
     doubleTimeHours := doubleTimeHours a + doubleTimeHours b |}.

Definition sumBreakdowns (l : list Summary) : Summary :=
  fold_right addSummary initialSummary l.

(** The events of [l] attributed to the date [d], in their order in [l]. *)
Definition bucket (d : string) (l : list ClockEvent) : list ClockEvent :=
  filter (fun tc => String.eqb (date tc) d) l.

(** [s] contains [q] as a substring once both are folded to lower case. *)
Definition ContainsCI (s q : string) : Prop :=
  exists pre post : string,
    toLowerCase s = (pre ++ toLowerCase q ++ post)%string.

(** The search query matches an event: it is empty, or the job name, the
    task name or the event kind contains it. *)
Definition Matches (q : string) (tc : ClockEvent) : Prop :=
  q = EmptyString \/
  (exists j, job tc = Some j /\ ContainsCI (job_name j) q) \/
  (exists t, task tc = Some t /\ ContainsCI (task_name t) q) \/
  ContainsCI (type tc) q.

(** The attributed date of an event lies in the closed interval of the
    selected window. *)
Definition InWindow {api : DateApi} (now : Z) (p : Period) (tc : ClockEvent) : Prop :=
  match p with
  | week => exists t, parseISO (date tc) = Some t /\
                      (startOfWeek now <= t <= endOfWeek now)%Z
  | month => exists t, parseISO (date tc) = Some t /\
                       (startOfMonth now <= t <= endOfMonth now)%Z
  | all => True
  end.

(** Every date of the events is one the [Date] constructor accepts. *)
Definition validDates {api : DateApi} (l : list ClockEvent) : Prop :=
  Forall (fun tc => newDate (date tc) <> None) l.

(** [a] is a date not before [b], both valid. *)
Definition dateGe {api : DateApi} (a b : string) : Prop :=
  exists x y, newDate a = Some x /\ newDate b = Some y /\ (y <= x)%Z.

(** On the elements of [l] the comparator [cmp] is the difference of the
    integer key [key]. *)
Definition keyed {A} (cmp : A -> A -> option Z) (key : A -> Z) (l : list A) : Prop :=
  forall x y, In x l -> In y l -> cmp x y = Some (key x - key y)%Z.

Definition ascending {A} (key : A -> Z) (x y : A) : Prop := (key x <= key y)%Z.

(** The instant of a date string, 0 when it is invalid. *)
Definition dateValue {api : DateApi} (d : string) : Z :=
  match newDate d with Some x => x | None => 0%Z end.

(** ** Sample data *)

(** The instant [h]:[m] of the day number [day]. *)
Definition clock (day h m : Z) : Z :=
  (day * msPerDay + h * 3600000 + m * 60000)%Z.

Definition event (i d : string) (t : Z) (kind jobName st : string) : ClockEvent :=
  {| id := i; date := d; timestamp := t; type := kind;
     job := Some {| job_name := jobName |}; task := None; status := st |}.

(** Monday 15 January 2024 is day 19737: a day of 8 hours with a lunch
    break, and a day of 9 hours after it. *)
Definition monday : list ClockEvent :=
  [ event "1" "2024-01-15" (clock 19737 8 0) "clock_in" "Warehouse" "draft";
    event "2" "2024-01-15" (clock 19737 12 0) "lunch_out" "Warehouse" "draft";
    event "3" "2024-01-15" (clock 19737 12 30) "lunch_in" "Warehouse" "draft";
    event "4" "2024-01-15" (clock 19737 16 30) "clock_out" "Warehouse" "draft" ].

Definition tuesday : list ClockEvent :=
  [ event "5" "2024-01-16" (clock 19738 8 0) "clock_in" "Office" "draft";
    event "6" "2024-01-16" (clock 19738 17 0) "clock_out" "Office" "draft" ].

(** Two events of one day with the same timestamp, in both orders. *)
Definition tieA : list ClockEvent :=
  [ event "1" "2024-01-15" (clock 19737 8 0) "clock_in" "Warehouse" "draft";
    event "2" "2024-01-15" (clock 19737 8 0) "clock_out" "Warehouse" "draft" ].

Definition tieB : list ClockEvent := rev tieA.

(** A day of 13 hours. *)
Definition wednesday : list ClockEvent :=
  [ event "7" "2024-01-17" (clock 19739 6 0) "clock_in" "Office" "draft";
    event "8" "2024-01-17" (clock 19739 19 0) "clock_out" "Office" "draft" ].

(** A Sunday event, the lower boundary of the week of Monday 15 January
    2024, and a Saturday event, the upper boundary. *)
Definition sunday : ClockEvent :=
  event "9" "2024-01-14" (clock 19736 9 0) "clock_in" "Warehouse" "draft".

Definition saturday : ClockEvent :=
  event "10" "2024-01-20" (clock 19742 9 0) "clock_in" "Warehouse" "draft".

(** The event [tc] with another timestamp. *)
Definition withTimestamp (t : Z) (tc : ClockEvent) : ClockEvent :=
  {| id := id tc; date := date tc; timestamp := t; type := type tc;
     job := job tc; task := task tc; status := status tc |}.

(** No event of [l] attributed to [d] is submitted or approved. *)
Definition Unsubmitted (d : string) (l : list ClockEvent) : Prop :=
  forall tc, In tc l -> date tc = d ->
             status tc <> "submitted" /\ status tc <> "approved".

(** A day with one submitted and one approved event. *)
Definition mixedDay : list ClockEvent :=
  [ event "11" "2024-01-18" (clock 19740 8 0) "clock_in" "Office" "submitted";
    event "12" "2024-01-18" (clock 19740 16 0) "clock_out" "Office" "approved" ].

(** The screen showing [tuesday], all periods, with the search query [q]. *)
Definition tuesdayScreen (q : string) : Screen :=
  {| timecards := tuesday; filteredTimecards := []; searchQuery := q;
     selectedPeriod := all; summary := initialSummary |}.

(** ** Kind of an event as displayed (lines 213-231 and 346) *)












(** The day view has no card at all: the "No timecards found" card shows. *)
Definition showsEmptyCard {api : DateApi} {svc : TimeclockService} (st : Screen) : bool :=
  (List.length (dailyTimecards st) =? 0)%nat.


(** ** Photo viewer ([components/PhotoViewer.js], lines 30-48 and 129-149) *)

Record Photo := {
  photo_uri : string;
  photo_type : string
}.

(** [photos.length] as a number. *)
Definition count {A} (l : list A) : Z := Z.of_nat (List.length l).

(** [navigatePhoto(direction)]: the index after the call. *)
Definition navigatePhoto (photos : list Photo) (direction : string) (currentIndex : Z) : Z :=
  if String.eqb direction "next" && (currentIndex <? count photos - 1)%Z
  then (currentIndex + 1)%Z
  else if String.eqb direction "prev" && (0 <? currentIndex)%Z
  then (currentIndex - 1)%Z
  else currentIndex.

(** [photos[currentIndex]], [None] for [undefined]. *)
Definition currentPhoto (photos : list Photo) (currentIndex : Z) : option Photo :=
  if (currentIndex <? 0)%Z then None else nth_error photos (Z.to_nat currentIndex).

(** The two arrows are rendered under these conditions. *)
Definition showsPrev (photos : list Photo) (currentIndex : Z) : bool :=
  (1 <? count photos)%Z && (0 <? currentIndex)%Z.

Definition showsNext (photos : list Photo) (currentIndex : Z) : bool :=
  (1 <? count photos)%Z && (currentIndex <? count photos - 1)%Z.

(** What the user can press: an arrow, or the thumbnail of [photos.map]'s
    [index]. *)
Inductive ViewerPress :=
| PressArrow (direction : string)
| PressThumbnail (index : nat).

Definition viewerPress (photos : list Photo) (currentIndex : Z) (p : ViewerPress) : Z :=
  match p with
  | PressArrow direction => navigatePhoto photos direction currentIndex
  | PressThumbnail index => Z.of_nat index
  end.

(** A thumbnail exists for the indices of [photos] only. *)
Definition pressable (photos : list Photo) (p : ViewerPress) : Prop :=
  match p with
  | PressArrow _ => True
  | PressThumbnail index => (index < List.length photos)%nat
  end.

(** [currentIndex] is an index of [photos]. *)
Definition validIndex (photos : list Photo) (currentIndex : Z) : Prop :=
  (0 <= currentIndex < count photos)%Z.

(** Three photos for the examples. *)
Definition threePhotos : list Photo :=
  [ {| photo_uri := "file:///a.jpg"; photo_type := "clock_in" |};
    {| photo_uri := "file:///b.jpg"; photo_type := "lunch_out" |};
    {| photo_uri := "file:///c.jpg"; photo_type := "clock_out" |} ].

(** ** Job selection ([screens/JobSelectionScreen.js]) *)

Record Location := {
  latitude : Q;
  longitude : Q
}.

Record SiteTask := {
  stask_id : string;
  stask_name : string
}.

Record JobSite := {
  site_id : string;
  site_name : string;
  site_address : string;
  site_location : option Location;
  site_tasks : option (list SiteTask)
}.

(** [{...job, distance}], an element of [nearbyJobs]. *)
Record NearbyJob := {
  nearby_job : JobSite;
  distance : Z
}.

(** [LocationService.calculateDistance], in metres; it belongs to the
    environment. *)
Class LocationService := {
  calculateDistance : Q -> Q -> Q -> Q -> Q
}.

(** [Math.round]: the nearest integer, a half going up. *)
Definition round (x : Q) : Z := Qfloor (x + (1 # 2)).

Section Nearby.
Context {loc : LocationService}.

(** The body of the [for] loop of [findNearbyJobs] (lines 79-95). *)
Definition considerJob (location : Location) (nearby : list NearbyJob) (job : JobSite)
    : list NearbyJob :=
  match site_location job with
  | Some jl =>
      let d := calculateDistance (latitude location) (longitude location)
                                 (latitude jl) (longitude jl) in
      if Qle_bool d 1000
      then nearby ++ [ {| nearby_job := job; distance := round d |} ]
      else nearby
  | None => nearby
  end.

(** [(a, b) => a.distance - b.distance]. *)
Definition byDistance (a b : NearbyJob) : option Z := Some (distance a - distance b)%Z.

(** The array [findNearbyJobs] stores in [nearbyJobs], for the job sites
    [jobs] that the service returned. *)
Definition findNearbyJobs (location : Location) (jobs : list JobSite) : list NearbyJob :=
  let nearby := fold_left (considerJob location) jobs [] in
  sortBy byDistance nearby.
End Nearby.

(** [nj => nj.id === job.id]. *)
Definition sameJob (job : JobSite) (nj : NearbyJob) : bool :=
  String.eqb (site_id (nearby_job nj)) (site_id job).

Definition isNearby (nearbyJobs : list NearbyJob) (job : JobSite) : bool :=
  existsb (sameJob job) nearbyJobs.

(** A number in a template literal. *)
Definition showNumber (n : Z) : string := NilZero.string_of_int (Z.to_int n).

Definition getDistanceText (nearbyJobs : list NearbyJob) (job : JobSite) : string :=
  match find (sameJob job) nearbyJobs with
  | Some nearbyJob => (showNumber (distance nearbyJob) ++ "m away")%string
  | None => ""
  end.

(** [nearbyJobs.slice(0, 3)], the chips of the "Nearby Job Sites" card. *)
Definition nearbyChips (nearbyJobs : list NearbyJob) : list NearbyJob :=
  firstn 3 nearbyJobs.

(** [filteredJobs] (lines 152-155). *)
Definition jobMatches (searchQuery : string) (job : JobSite) : bool :=
  includes (toLowerCase (site_name job)) (toLowerCase searchQuery)
  || includes (toLowerCase (site_address job)) (toLowerCase searchQuery).

Definition filteredJobs (jobSites : list JobSite) (searchQuery : string) : list JobSite :=
  filter (jobMatches searchQuery) jobSites.

(** The selection the screen holds. *)
Record Selection := {
  selectedJob : option JobSite;
  selectedTask : option SiteTask
}.

Definition noSelection : Selection :=
  {| selectedJob := None; selectedTask := None |}.

Definition handleJobSelect (job : JobSite) (st : Selection) : Selection :=
  {| selectedJob := Some job; selectedTask := None |}.

Definition handleTaskSelect (task : SiteTask) (st : Selection) : Selection :=
  {| selectedJob := selectedJob st; selectedTask := Some task |}.

(** [selectedJob?.id === job.id]. *)
Definition isSelected (st : Selection) (job : JobSite) : bool :=
  match selectedJob st with
  | Some j => String.eqb (site_id j) (site_id job)
  | None => false
  end.

(** The presses the rendered screen offers: a card of [filteredJobs], one
    of the nearby chips (which hands over the job site with its distance;
    the distance plays no part afterwards), or a task of the card whose job
    is the selected one. *)
Inductive SelectionPress :=
| PressCard (job : JobSite)
| PressChip (nj : NearbyJob)
| PressTask (job : JobSite) (task : SiteTask).

Definition offered (jobSites : list JobSite) (nearbyJobs : list NearbyJob)
    (searchQuery : string) (st : Selection) (p : SelectionPress) : Prop :=
  match p with
  | PressCard job => In job (filteredJobs jobSites searchQuery)
  | PressChip nj => In nj (nearbyChips nearbyJobs)
  | PressTask job task =>
      In job (filteredJobs jobSites searchQuery) /\
      isSelected st job = true /\
      exists tasks, site_tasks job = Some tasks /\ In task tasks
  end.

Definition selectionPress (st : Selection) (p : SelectionPress) : Selection :=
  match p with
  | PressCard job => handleJobSelect job st
  | PressChip nj => handleJobSelect (nearby_job nj) st
  | PressTask _ task => handleTaskSelect task st
  end.

(** The states the screen reaches from [start] by presses it offers, the
    search query being free to change between presses. *)
Inductive reaches (jobSites : list JobSite) (nearbyJobs : list NearbyJob)
    (start : Selection) : Selection -> Prop :=
| reaches_start : reaches jobSites nearbyJobs start start
| reaches_press st searchQuery p :
    reaches jobSites nearbyJobs start st ->
    offered jobSites nearbyJobs searchQuery st p ->
    reaches jobSites nearbyJobs start (selectionPress st p).

(** The "Current Selection" card is rendered, and its Confirm button is
    disabled. *)
Definition showsSelectionCard (st : Selection) : bool :=
  match selectedJob st, selectedTask st with
  | None, None => false
  | _, _ => true
  end.

Definition confirmDisabled (st : Selection) : bool :=
  match selectedJob st with Some _ => false | None => true end.

(** The selected task, if any, is a task of a job site with the identifier
    of the selected job. *)
Definition taskOfSelectedJob (jobSites : list JobSite) (st : Selection) : Prop :=
  forall task, selectedTask st = Some task ->
    exists j site tasks,
      selectedJob st = Some j /\ In site jobSites /\
      site_id site = site_id j /\ site_tasks site = Some tasks /\ In task tasks.


(** The distance from [location] to the place [jl] of a job. *)
Definition distanceTo {loc : LocationService} (location jl : Location) : Q :=
  calculateDistance (latitude location) (longitude location)
                    (latitude jl) (longitude jl).

(** Sample job sites on a line, with the distance along it. *)
Definition lineDistance : LocationService :=
  {| calculateDistance := fun lat1 lon1 lat2 lon2 => Qabs (lon2 - lon1) |}.

Definition site (i name address : string) (place : option Q)
    (tasks : option (list SiteTask)) : JobSite :=
  {| site_id := i; site_name := name; site_address := address;
     site_location := option_map (fun x => {| latitude := 0; longitude := x |}) place;
     site_tasks := tasks |}.

Definition welding : SiteTask := {| stask_id := "t1"; stask_name := "Welding" |}.

Definition sampleSites : list JobSite :=
  [ site "a" "Harbour" "1 Dock Road" (Some (2401 # 2)) (Some [welding]);
    site "b" "Depot" "9 Mill Lane" (Some (601 # 2)) None;
    site "c" "Office" "3 Main Street" None None;
    site "d" "Quarry" "Hill Road" (Some 1000) None;
    site "e" "Plant" "Dock Road East" (Some 12) None ].

Definition origin : Location := {| latitude := 0; longitude := 0 |}.

(** * Properties *)

(** ** Facts about the classifier *)

(** Case analysis on the two comparisons of the loop body. *)
Ltac by_tier h := destruct (gtb h 12); [|destruct (gtb h 8)].

Lemma gtb_true (x y : Q) : gtb x y = true <-> y < x.
Proof.
  unfold gtb. rewrite negb_true_iff. split; intro H.
  - apply Qnot_le_lt. intro L. apply Qle_bool_iff in L. congruence.
  - destruct (Qle_bool x y) eqn:E; trivial.
    apply Qle_bool_iff in E. exfalso. apply (Qlt_not_le _ _ H E).
Qed.

Lemma gtb_false (x y : Q) : gtb x y = false <-> x <= y.
Proof.
  unfold gtb. rewrite negb_false_iff. apply Qle_bool_iff.
Qed.

#[global] Instance Summary_eq_Equivalence : Equivalence Summary_eq.
Proof.
  split.
  - intros a. repeat split; reflexivity.
  - intros a b (H1 & H2 & H3 & H4). repeat split; symmetry; assumption.
  - intros a b c (H1 & H2 & H3 & H4) (K1 & K2 & K3 & K4).
    repeat split; etransitivity; eassumption.
Qed.

#[global] Instance gtb_Proper : Proper (Qeq ==> Qeq ==> eq) gtb.
Proof.
  intros x x' Hx y y' Hy. unfold gtb. now rewrite Hx, Hy.
Qed.

#[global] Instance accumulateDay_Proper :
  Proper (Summary_eq ==> Qeq ==> Summary_eq) accumulateDay.
Proof.
  intros a b (H1 & H2 & H3 & H4) h k Hk. unfold accumulateDay.
  rewrite <- (gtb_Proper h k Hk 12 12 (Qeq_refl _)).
  rewrite <- (gtb_Proper h k Hk 8 8 (Qeq_refl _)).
  by_tier h; repeat split; simpl; lra.
Qed.

(** The three tiers, read off the code with the comparisons resolved. *)
Lemma classify_low (h : Q) : h <= 8 ->
  classify h =s= {| totalHours := h; regularHours := h;
                    overtimeHours := 0; doubleTimeHours := 0 |}.
Proof.
  intro H. unfold classify, accumulateDay.
  assert (E12 : gtb h 12 = false) by (apply gtb_false; lra).
  assert (E8 : gtb h 8 = false) by (apply gtb_false; lra).
  rewrite E12, E8. repeat split; simpl; lra.
Qed.

Lemma classify_mid (h : Q) : 8 < h -> h <= 12 ->
  classify h =s= {| totalHours := h; regularHours := 8;
                    overtimeHours := h - 8; doubleTimeHours := 0 |}.
Proof.
  intros H8 H12. unfold classify, accumulateDay.
  assert (E12 : gtb h 12 = false) by (apply gtb_false; lra).
  assert (E8 : gtb h 8 = true) by (apply gtb_true; lra).
  rewrite E12, E8. repeat split; simpl; lra.
Qed.

Lemma classify_high (h : Q) : 12 < h ->
  classify h =s= {| totalHours := h; regularHours := 8;
                    overtimeHours := 4; doubleTimeHours := h - 12 |}.
Proof.
  intros H12. unfold classify, accumulateDay.
  assert (E12 : gtb h 12 = true) by (apply gtb_true; lra).
  rewrite E12. repeat split; simpl; lra.
Qed.

(** C1. The overtime classifier has three tiers: a day of [h <= 8] hours is
    all regular; for [8 < h <= 12] it has 8 regular hours and [h - 8] of
    overtime; for [h > 12] it has 8 regular hours, 4 of overtime and
    [h - 12] of double time.  The boundaries belong to the lower tier:
    [classify 8] is (8,0,0) and [classify 12] is (8,4,0).  The code does not
    look at the sign of [h], so this holds of every [h], in particular of
    every [h >= 0]. *)
Theorem classify_tiers (h : Q) :
  (h <= 8 ->
     regularHours (classify h) == h /\
     overtimeHours (classify h) == 0 /\
     doubleTimeHours (classify h) == 0) /\
  (8 < h /\ h <= 12 ->
     regularHours (classify h) == 8 /\
     overtimeHours (classify h) == h - 8 /\
     doubleTimeHours (classify h) == 0) /\
  (12 < h ->
     regularHours (classify h) == 8 /\
     overtimeHours (classify h) == 4 /\
     doubleTimeHours (classify h) == h - 12) /\
  classify 8 = {| totalHours := 8; regularHours := 8;
                  overtimeHours := 0; doubleTimeHours := 0 |} /\
  classify 12 = {| totalHours := 12; regularHours := 8;
                   overtimeHours := 4; doubleTimeHours := 0 |}.
Proof.
  split; [|split; [|split; [|split]]].
  - intro H. destruct (classify_low h H) as (_ & R & O & D). auto.
  - intros [H8 H12]. destruct (classify_mid h H8 H12) as (_ & R & O & D). auto.
  - intro H. destruct (classify_high h H) as (_ & R & O & D). auto.
  - reflexivity.
  - reflexivity.
Qed.

Lemma classify_tiers_witness :
  regularHours (classify (15 # 2)) == 15 # 2 /\
  overtimeHours (classify (801 # 100)) == 1 # 100 /\
  doubleTimeHours (classify (1201 # 100)) == 1 # 100.
Proof.
  split; [|split].
  - destruct (classify_tiers (15 # 2)) as (L & _).
    destruct L as (R & _); [lra | exact R].
  - destruct (classify_tiers (801 # 100)) as (_ & M & _).
    destruct M as (_ & O & _); [lra | rewrite O; lra].
  - destruct (classify_tiers (1201 # 100)) as (_ & _ & Hi & _).
    destruct Hi as (_ & _ & D); [lra | rewrite D; lra].
Defined.

(** ** The buckets add up to the total *)

Lemma accumulateDay_balanced (acc : Summary) (h : Q) :
  balanced acc -> balanced (accumulateDay acc h).
Proof.
  unfold balanced, accumulateDay. intro B.
  by_tier h; simpl; lra.
Qed.

Lemma fold_accumulateDay_balanced {A} (f : A -> Q) (l : list A) (acc : Summary) :
  balanced acc ->
  balanced (fold_left (fun a x => accumulateDay a (f x)) l acc).
Proof.
  revert acc. induction l as [|x l IH]; intros acc B; simpl.
  - exact B.
  - apply IH, accumulateDay_balanced, B.
Qed.

Lemma classify_balanced (h : Q) :
  regularHours (classify h) + overtimeHours (classify h)
    + doubleTimeHours (classify h) == h.
Proof.
  assert (B : balanced (classify h)).
  { apply accumulateDay_balanced. unfold balanced. simpl. lra. }
  assert (T : totalHours (classify h) == h).
  { unfold classify, accumulateDay.
    by_tier h; simpl; lra. }
  unfold balanced in B. rewrite <- B. exact T.
Qed.

(** C2. The three buckets of a day partition its total: for every [h] (so
    for every [h >= 0]) regular + overtime + doubleTime of [classify h]
    equals [h], exactly and hence within 1e-9; and the summary that
    [calculateSummary] reports has totalHours = regularHours +
    overtimeHours + doubleTimeHours, whatever the service computes as the
    hours of a day. *)
Theorem buckets_partition_total :
  (forall h : Q,
     regularHours (classify h) + overtimeHours (classify h)
       + doubleTimeHours (classify h) == h /\
     Qabs (regularHours (classify h) + overtimeHours (classify h)
             + doubleTimeHours (classify h) - h) <= 1 # 1000000000) /\
  (forall (svc : TimeclockService) (timecards : list ClockEvent),
     totalHours (calculateSummary timecards) ==
     regularHours (calculateSummary timecards)
       + overtimeHours (calculateSummary timecards)
       + doubleTimeHours (calculateSummary timecards)).
Proof.
  split.
  - intro h. pose proof (classify_balanced h) as E. split; [exact E|].
    rewrite E. setoid_replace (h - h) with 0 by ring. discriminate.
  - intros svc timecards. unfold calculateSummary, summarise.
    apply (fold_accumulateDay_balanced
             (fun d => calculateDayHours (get (groupByDate timecards) d))).
    unfold balanced. simpl. lra.
Qed.

(** ** Grouping by date *)

Lemma groupByDate_snoc (l : list ClockEvent) (tc : ClockEvent) :
  groupByDate (l ++ [tc]) = push (date tc) tc (groupByDate l).
Proof.
  unfold groupByDate. now rewrite fold_left_app.
Qed.

Lemma bucket_snoc (d : string) (l : list ClockEvent) (tc : ClockEvent) :
  bucket d (l ++ [tc]) =
  if String.eqb (date tc) d then bucket d l ++ [tc] else bucket d l.
Proof.
  unfold bucket. rewrite filter_app. simpl.
  destruct (String.eqb (date tc) d); [reflexivity | apply app_nil_r].
Qed.

Lemma get_push (k d : string) (tc : ClockEvent) grouped :
  get (push k tc grouped) d =
  if String.eqb k d then get grouped d ++ [tc] else get grouped d.
Proof.
  induction grouped as [|[k' tcs] rest IH]; simpl.
  - destruct (String.eqb k d); reflexivity.
  - destruct (String.eqb_spec k' k) as [->|Hk]; simpl.
    + destruct (String.eqb k d); reflexivity.
    + destruct (String.eqb_spec k' d) as [->|Hd].
      * destruct (String.eqb_spec k d) as [->|_]; [congruence | reflexivity].
      * exact IH.
Qed.

Lemma keys_push_in (k : string) (tc : ClockEvent) grouped :
  In k (keys grouped) -> keys (push k tc grouped) = keys grouped.
Proof.
  induction grouped as [|[k' tcs] rest IH]; simpl; intro H.
  - contradiction.
  - destruct (String.eqb_spec k' k) as [->|Hk]; simpl.
    + reflexivity.
    + f_equal. apply IH. destruct H; [congruence | assumption].
Qed.

Lemma keys_push_new (k : string) (tc : ClockEvent) grouped :
  ~ In k (keys grouped) -> keys (push k tc grouped) = keys grouped ++ [k].
Proof.
  induction grouped as [|[k' tcs] rest IH]; simpl; intro H.
  - reflexivity.
  - destruct (String.eqb_spec k' k) as [->|Hk]; simpl.
    + exfalso. apply H. now left.
    + f_equal. apply IH. intro Hin. apply H. now right.
Qed.

Lemma concat_push (k : string) (tc : ClockEvent) grouped :
  Permutation (List.concat (map snd (push k tc grouped)))
              (List.concat (map snd grouped) ++ [tc]).
Proof.
  induction grouped as [|[k' tcs] rest IH]; simpl.
  - reflexivity.
  - destruct (String.eqb k' k); simpl.
    + rewrite <- !app_assoc. apply Permutation_app_head, Permutation_app_comm.
    + rewrite <- app_assoc. apply Permutation_app_head, IH.
Qed.

Lemma groupByDate_get (l : list ClockEvent) (d : string) :
  get (groupByDate l) d = bucket d l.
Proof.
  induction l as [|tc l IH] using rev_ind.
  - reflexivity.
  - rewrite groupByDate_snoc, get_push, bucket_snoc, IH. reflexivity.
Qed.

Lemma groupByDate_keys_NoDup (l : list ClockEvent) :
  NoDup (keys (groupByDate l)).
Proof.
  induction l as [|tc l IH] using rev_ind.
  - constructor.
  - rewrite groupByDate_snoc.
    destruct (in_dec string_dec (date tc) (keys (groupByDate l))) as [Hin|Hout].
    + now rewrite keys_push_in.
    + rewrite keys_push_new by assumption.
      apply NoDup_app; [assumption | repeat constructor; auto |].
      intros x Hx [<-|[]]. contradiction.
Qed.

Lemma groupByDate_keys_In (l : list ClockEvent) (d : string) :
  In d (keys (groupByDate l)) <-> exists tc, In tc l /\ date tc = d.
Proof.
  induction l as [|tc l IH] using rev_ind.
  - simpl. split; [contradiction | intros (tc & [] & _)].
  - rewrite groupByDate_snoc.
    assert (Hk : In d (keys (push (date tc) tc (groupByDate l))) <->
                 In d (keys (groupByDate l)) \/ d = date tc).
    { destruct (in_dec string_dec (date tc) (keys (groupByDate l))) as [Hin|Hout].
      - rewrite keys_push_in by assumption. split; [auto|].
        intros [H| ->]; assumption.
      - rewrite keys_push_new by assumption. rewrite in_app_iff. simpl.
        split; intros [H|H]; auto.
        + destruct H as [H|[]]; auto.
    }
    rewrite Hk, IH. split.
    + intros [(tc' & Hin & Hd) | ->].
      * exists tc'. split; [apply in_or_app; now left | assumption].
      * exists tc. split; [apply in_or_app; right; now left | reflexivity].
    + intros (tc' & Hin & Hd). apply in_app_or in Hin as [Hin|[<-|[]]].
      * left. now exists tc'.
      * now right.
Qed.

Lemma groupByDate_concat (l : list ClockEvent) :
  Permutation (List.concat (map snd (groupByDate l))) l.
Proof.
  induction l as [|tc l IH] using rev_ind.
  - reflexivity.
  - rewrite groupByDate_snoc, concat_push. now apply Permutation_app_tail.
Qed.

(** On an object with distinct keys, reading every key gives the arrays in
    key order. *)
Lemma map_get_keys grouped :
  NoDup (keys grouped) -> map (get grouped) (keys grouped) = map snd grouped.
Proof.
  induction grouped as [|[k tcs] rest IH]; simpl; intro ND.
  - reflexivity.
  - inversion ND as [|? ? Hk ND']; subst.
    rewrite String.eqb_refl. f_equal.
    rewrite <- (IH ND'). apply map_ext_in. intros d Hd.
    destruct (String.eqb_spec k d) as [->|_]; [contradiction | reflexivity].
Qed.

Lemma bucket_Permutation (d : string) (l l' : list ClockEvent) :
  Permutation l l' -> Permutation (bucket d l) (bucket d l').
Proof.
  unfold bucket. intro P. induction P; simpl.
  - reflexivity.
  - destruct (String.eqb (date x) d); [now constructor | assumption].
  - destruct (String.eqb (date x) d), (String.eqb (date y) d);
      try reflexivity; apply perm_swap.
  - etransitivity; eassumption.
Qed.

Lemma NoDup_map_bucket {B} (f : ClockEvent -> B) (d : string) (l : list ClockEvent) :
  NoDup (map f l) -> NoDup (map f (bucket d l)).
Proof.
  unfold bucket. induction l as [|x l IH]; simpl; intro ND.
  - constructor.
  - inversion ND as [|? ? Hx ND']; subst.
    destruct (String.eqb (date x) d); simpl; [|auto].
    constructor; [|auto].
    rewrite in_map_iff in *. intros (y & Hy & Hin).
    apply Hx. exists y. split; [assumption|].
    now apply filter_In in Hin.
Qed.

Lemma groupByDate_keys_Permutation (l l' : list ClockEvent) :
  Permutation l l' -> Permutation (keys (groupByDate l)) (keys (groupByDate l')).
Proof.
  intro P. apply NoDup_Permutation; try apply groupByDate_keys_NoDup.
  intro d. rewrite !groupByDate_keys_In.
  split; intros (tc & Hin & Hd); exists tc; split; trivial.
  - now apply (Permutation_in _ P).
  - now apply (Permutation_in _ (Permutation_sym P)).
Qed.

(** ** Sorting *)

Section Sorting.
Context {A : Type} (cmp : A -> A -> option Z).

Lemma insertBy_Permutation (x : A) (l : list A) :
  Permutation (insertBy cmp x l) (x :: l).
Proof.
  induction l as [|y l IH]; simpl.
  - reflexivity.
  - destruct (notAfter (cmp x y)).
    + reflexivity.
    + rewrite IH. apply perm_swap.
Qed.

Lemma sortBy_Permutation (l : list A) : Permutation (sortBy cmp l) l.
Proof.
  induction l as [|x l IH]; simpl.
  - reflexivity.
  - rewrite insertBy_Permutation. now constructor.
Qed.

(** When the comparator is the difference of an integer key on the
    elements at hand, the result is ascending in that key. *)
Variable key : A -> Z.

Lemma insertBy_sorted (x : A) (l : list A) :
  keyed cmp key (x :: l) -> StronglySorted (ascending key) l ->
  StronglySorted (ascending key) (insertBy cmp x l).
Proof.
  intros K S. induction S as [|y l S IH F]; simpl.
  - repeat constructor.
  - rewrite (K x y) by (simpl; auto). simpl.
    destruct (Z.leb_spec (key x - key y) 0) as [Hle|Hgt].
    + constructor; [now constructor|].
      constructor; [unfold ascending; lia|].
      eapply Forall_impl; [|exact F]. unfold ascending. intros; lia.
    + constructor.
      * apply IH. intros a b Ha Hb. apply K; simpl in *; tauto.
      * apply (Permutation_Forall (Permutation_sym (insertBy_Permutation x l))).
        constructor; [unfold ascending; lia | exact F].
Qed.

Lemma sortBy_sorted (l : list A) :
  keyed cmp key l -> StronglySorted (ascending key) (sortBy cmp l).
Proof.
  induction l as [|x l IH]; simpl; intro K.
  - constructor.
  - assert (Kl : keyed cmp key l) by (intros a b Ha Hb; apply K; simpl; auto).
    apply insertBy_sorted; [|auto].
    intros a b Ha Hb. apply K.
    + destruct Ha as [->|Ha]; [now left|right].
      now apply (Permutation_in _ (sortBy_Permutation l)).
    + destruct Hb as [->|Hb]; [now left|right].
      now apply (Permutation_in _ (sortBy_Permutation l)).
Qed.

(** Two ascending arrangements of the same elements are equal when no two
    elements share a key. *)
Lemma sorted_unique (l1 l2 : list A) :
  StronglySorted (ascending key) l1 -> StronglySorted (ascending key) l2 ->
  Permutation l1 l2 -> NoDup (map key l1) -> l1 = l2.
Proof.
  intros S1. revert l2. induction S1 as [|x l1 S1 IH F1]; intros l2 S2 P ND.
  - apply Permutation_nil in P. now subst.
  - destruct S2 as [|y l2 S2 F2].
    + apply Permutation_sym, Permutation_nil in P. discriminate.
    + simpl in ND. inversion ND as [|? ? Hx ND']; subst.
      assert (x = y) as <-.
      { assert (Hxin : In x (y :: l2)) by (apply (Permutation_in _ P); now left).
        assert (Hyin : In y (x :: l1))
          by (apply (Permutation_in _ (Permutation_sym P)); now left).
        destruct Hxin as [->|Hxin]; [reflexivity|].
        destruct Hyin as [->|Hyin]; [reflexivity|].
        rewrite Forall_forall in F1, F2.
        pose proof (F1 _ Hyin) as L1. pose proof (F2 _ Hxin) as L2.
        exfalso. apply Hx. replace (key x) with (key y) by (unfold ascending in *; lia).
        now apply in_map. }
      f_equal. apply IH; [assumption | | assumption].
      now apply Permutation_cons_inv in P.
Qed.

(** The sort is stable: the elements of one key keep their order. *)
Lemma insertBy_filter_key (k : Z) (x : A) (l : list A) :
  keyed cmp key (x :: l) ->
  filter (fun a => (key a =? k)%Z) (insertBy cmp x l) =
  filter (fun a => (key a =? k)%Z) (x :: l).
Proof.
  intro K. induction l as [|y l IH]; [reflexivity|].
  cbn [insertBy]. rewrite (K x y) by (simpl; auto). cbn [notAfter].
  destruct (Z.leb_spec (key x - key y) 0) as [Hle|Hgt]; [reflexivity|].
  cbn [filter]. rewrite IH by (intros a b Ha Hb; apply K; simpl in *; tauto).
  cbn [filter].
  destruct (Z.eqb_spec (key x) k), (Z.eqb_spec (key y) k); try reflexivity.
  exfalso. lia.
Qed.

Lemma sortBy_filter_key (k : Z) (l : list A) :
  keyed cmp key l ->
  filter (fun a => (key a =? k)%Z) (sortBy cmp l) =
  filter (fun a => (key a =? k)%Z) l.
Proof.
  induction l as [|x l IH]; intro K; [reflexivity|].
  cbn [sortBy fold_right]. fold (sortBy cmp l).
  rewrite insertBy_filter_key.
  - cbn [filter]. rewrite IH; [reflexivity|].
    intros a b Ha Hb. apply K; now right.
  - intros a b Ha Hb. apply K.
    + destruct Ha as [->|Ha]; [now left | right].
      now apply (Permutation_in _ (sortBy_Permutation l)).
    + destruct Hb as [->|Hb]; [now left | right].
      now apply (Permutation_in _ (sortBy_Permutation l)).
Qed.

Lemma sortBy_unique (l1 l2 : list A) :
  keyed cmp key l1 -> NoDup (map key l1) -> Permutation l1 l2 ->
  sortBy cmp l1 = sortBy cmp l2.
Proof.
  intros K ND P.
  assert (K2 : keyed cmp key l2).
  { intros a b Ha Hb.
    apply K; now apply (Permutation_in _ (Permutation_sym P)). }
  apply sorted_unique.
  - now apply sortBy_sorted.
  - now apply sortBy_sorted.
  - rewrite !sortBy_Permutation. exact P.
  - eapply Permutation_NoDup; [|exact ND].
    apply Permutation_map, Permutation_sym, sortBy_Permutation.
Qed.
End Sorting.

Lemma StronglySorted_map {A B} (R : B -> B -> Prop) (f : A -> B) (l : list A) :
  StronglySorted (fun a b => R (f a) (f b)) l -> StronglySorted R (map f l).
Proof.
  induction 1 as [|x l S IH F]; simpl; constructor.
  - exact IH.
  - rewrite Forall_map. exact F.
Qed.

Lemma StronglySorted_impl_In {A} (R R' : A -> A -> Prop) (l : list A) :
  (forall a b, In a l -> In b l -> R a b -> R' a b) ->
  StronglySorted R l -> StronglySorted R' l.
Proof.
  intros HR S. induction S as [|x l S IH F].
  - constructor.
  - constructor.
    + apply IH. intros a b Ha Hb. apply HR; now right.
    + rewrite Forall_forall in *. intros y Hy.
      apply HR; [now left | now right | now apply F].
Qed.

Lemma concat_map_pointwise {A B} (f g : A -> list B) (l : list A) :
  (forall x, In x l -> Permutation (f x) (g x)) ->
  Permutation (List.concat (map f l)) (List.concat (map g l)).
Proof.
  induction l as [|x l IH]; simpl; intro H.
  - reflexivity.
  - apply Permutation_app; [apply H; now left|].
    apply IH. intros y Hy. apply H. now right.
Qed.

Lemma concat_map_reorder {A B} (g : A -> list B) (l l' : list A) :
  Permutation l l' ->
  Permutation (List.concat (map g l)) (List.concat (map g l')).
Proof.
  induction 1; simpl.
  - reflexivity.
  - now apply Permutation_app_head.
  - rewrite !app_assoc. apply Permutation_app_tail, Permutation_app_comm.
  - etransitivity; eassumption.
Qed.

Lemma concat_map_Permutation {A B} (f g : A -> list B) (l l' : list A) :
  Permutation l l' -> (forall x, In x l -> Permutation (f x) (g x)) ->
  Permutation (List.concat (map f l)) (List.concat (map g l')).
Proof.
  intros P H. etransitivity.
  - apply concat_map_pointwise, H.
  - apply concat_map_reorder, P.
Qed.

(** ** The day view *)

Section DayViewFacts.
Context {api : DateApi} {svc : TimeclockService}.

Lemma byTimestamp_keyed (l : list ClockEvent) : keyed byTimestamp timestamp l.
Proof. intros x y _ _. reflexivity. Qed.

Lemma byDateDesc_keyed (ks : list string) :
  Forall (fun d => newDate d <> None) ks ->
  keyed byDateDesc (fun d => (- dateValue d)%Z) ks.
Proof.
  rewrite Forall_forall. intros V x y Hx Hy.
  unfold byDateDesc, dateMinus, dateValue.
  destruct (newDate x) eqn:Ex; [|now apply V in Hx].
  destruct (newDate y) eqn:Ey; [|now apply V in Hy].
  f_equal. lia.
Qed.

Lemma validDates_keys (l : list ClockEvent) :
  validDates l -> Forall (fun d => newDate d <> None) (keys (groupByDate l)).
Proof.
  unfold validDates. rewrite !Forall_forall. intros V d Hd.
  apply groupByDate_keys_In in Hd as (tc & Hin & <-). now apply V.
Qed.

Lemma getTimecardsByDate_dates (l : list ClockEvent) :
  map day_date (getTimecardsByDate l) = sortBy byDateDesc (keys (groupByDate l)).
Proof.
  unfold getTimecardsByDate. rewrite map_map. simpl. apply map_id.
Qed.

Lemma getTimecardsByDate_In (l : list ClockEvent) (wd : WorkDay) :
  In wd (getTimecardsByDate l) ->
  In (day_date wd) (keys (groupByDate l)) /\
  day_timecards wd = sortBy byTimestamp (bucket (day_date wd) l) /\
  day_totalHours wd = calculateDayHours (day_timecards wd).
Proof.
  unfold getTimecardsByDate. rewrite in_map_iff. intros (d & <- & Hd).
  simpl. rewrite groupByDate_get. repeat split.
  now apply (Permutation_in _ (sortBy_Permutation byDateDesc _)).
Qed.
End DayViewFacts.

(** C4. For every collection of clock events the day grouper returns one
    WorkDay per distinct attributed date of the input (the dates of the
    WorkDays are pairwise distinct and are exactly the dates present), each
    WorkDay holding the events of its date in ascending timestamp order;
    the WorkDays are in descending date order when every date of the input
    is a valid date; the events of all WorkDays together are a permutation
    of the input; and the empty input gives the empty sequence. *)
Theorem day_grouper (api : DateApi) (svc : TimeclockService) (l : list ClockEvent) :
  NoDup (map day_date (getTimecardsByDate l)) /\
  (forall d, In d (map day_date (getTimecardsByDate l)) <->
             exists tc, In tc l /\ date tc = d) /\
  (forall wd, In wd (getTimecardsByDate l) ->
     Permutation (day_timecards wd) (bucket (day_date wd) l) /\
     StronglySorted (fun a b => (timestamp a <= timestamp b)%Z) (day_timecards wd)) /\
  (validDates l ->
     StronglySorted (fun a b => dateGe (day_date a) (day_date b))
                    (getTimecardsByDate l)) /\
  Permutation (List.concat (map day_timecards (getTimecardsByDate l))) l /\
  getTimecardsByDate (api := api) (svc := svc) [] = [].
Proof.
  split; [|split; [|split; [|split; [|split]]]].
  - rewrite getTimecardsByDate_dates.
    eapply Permutation_NoDup; [|apply groupByDate_keys_NoDup].
    apply Permutation_sym, sortBy_Permutation.
  - intro d. rewrite getTimecardsByDate_dates, <- groupByDate_keys_In.
    split; apply Permutation_in;
      [|apply Permutation_sym]; apply sortBy_Permutation.
  - intros wd Hwd. apply getTimecardsByDate_In in Hwd as (_ & -> & _). split.
    + apply sortBy_Permutation.
    + apply (sortBy_sorted byTimestamp timestamp), byTimestamp_keyed.
  - intro V. unfold getTimecardsByDate.
    apply StronglySorted_map. simpl.
    pose proof (validDates_keys l V) as VK.
    assert (VS : Forall (fun d => newDate d <> None)
                        (sortBy byDateDesc (keys (groupByDate l)))).
    { eapply Permutation_Forall; [|exact VK].
      apply Permutation_sym, sortBy_Permutation. }
    eapply StronglySorted_impl_In;
      [|apply (sortBy_sorted byDateDesc (fun d => (- dateValue d)%Z)),
          byDateDesc_keyed, VK].
    rewrite Forall_forall in VS.
    intros a b Ha Hb Hab. unfold ascending, dateValue, dateGe in *.
    apply VS in Ha, Hb.
    destruct (newDate a) as [x|]; [|congruence].
    destruct (newDate b) as [y|]; [|congruence].
    exists x, y. repeat split. lia.
  - unfold getTimecardsByDate. rewrite map_map. simpl.
    etransitivity; [|apply groupByDate_concat].
    rewrite <- (map_get_keys _ (groupByDate_keys_NoDup l)).
    apply concat_map_Permutation.
    + apply sortBy_Permutation.
    + intros d _. apply sortBy_Permutation.
  - reflexivity.
Qed.

Lemma day_grouper_witness :
  validDates (api := utcDates) (tuesday ++ rev monday) /\
  StronglySorted (fun a b => dateGe (api := utcDates) (day_date a) (day_date b))
    (getTimecardsByDate (api := utcDates) (svc := specService)
       (tuesday ++ rev monday)).
Proof.
  assert (V : validDates (api := utcDates) (tuesday ++ rev monday))
    by (repeat constructor; vm_compute; discriminate).
  split; [exact V|].
  apply (day_grouper utcDates specService (tuesday ++ rev monday)), V.
Defined.

(** ** Reordering the input *)

(** Against C9 as stated: the two events of [tieA] share date and
    timestamp; in the other input order the day lists them in the other
    order, and neither order is by identifier in both. *)
Lemma reorder_changes_day_view :
  Permutation tieA tieB /\
  getTimecardsByDate (api := utcDates) (svc := specService) tieA <>
  getTimecardsByDate (api := utcDates) (svc := specService) tieB /\
  map (fun wd => map id (day_timecards wd))
      (getTimecardsByDate (api := utcDates) (svc := specService) tieB)
  = [["2"; "1"]].
Proof.
  split; [apply Permutation_rev | split].
  - intro H.
    apply (f_equal (map (fun wd => map id (day_timecards wd)))) in H.
    vm_compute in H. discriminate.
  - vm_compute. reflexivity.
Qed.

(** C9, amended. For two inputs that are permutations of one another, with
    valid dates, distinct date strings denoting distinct days, and no two
    events of one date sharing a timestamp, the day view (the days, the
    events of each day and the hours of each day) is identical.  Events of
    one date that share a timestamp are not ordered by identifier: in the
    day view they stand in their input order. *)
Theorem day_view_reorder (api : DateApi) (svc : TimeclockService) :
  (forall l1 l2 : list ClockEvent,
     Permutation l1 l2 ->
     validDates l1 ->
     (forall a b, In a l1 -> In b l1 ->
        newDate (date a) = newDate (date b) -> date a = date b) ->
     (forall d, NoDup (map timestamp (bucket d l1))) ->
     getTimecardsByDate l1 = getTimecardsByDate l2) /\
  (forall (l : list ClockEvent) (wd : WorkDay) (t : Z),
     In wd (getTimecardsByDate l) ->
     filter (fun tc => (timestamp tc =? t)%Z) (day_timecards wd) =
     filter (fun tc => (timestamp tc =? t)%Z) (bucket (day_date wd) l)).
Proof.
  split.
  - intros l1 l2 P V Inj Ties. unfold getTimecardsByDate.
    pose proof (validDates_keys l1 V) as VK.
    assert (E : sortBy byDateDesc (keys (groupByDate l1)) =
                sortBy byDateDesc (keys (groupByDate l2))).
    { apply (sortBy_unique byDateDesc (fun d => (- dateValue d)%Z)).
      - now apply byDateDesc_keyed.
      - apply NoDup_map_NoDup_ForallPairs; [|apply groupByDate_keys_NoDup].
        intros a b Ha Hb Hab.
        rewrite Forall_forall in VK.
        pose proof (VK _ Ha) as Va. pose proof (VK _ Hb) as Vb.
        apply groupByDate_keys_In in Ha as (ta & Hta & <-).
        apply groupByDate_keys_In in Hb as (tb & Htb & <-).
        apply Inj; trivial. unfold dateValue in Hab.
        destruct (newDate (date ta)); [|congruence].
        destruct (newDate (date tb)); [|congruence].
        f_equal. lia.
      - now apply groupByDate_keys_Permutation. }
    rewrite <- E. apply map_ext. intro d. unfold workDay.
    rewrite !groupByDate_get.
    assert (S : sortBy byTimestamp (bucket d l1) = sortBy byTimestamp (bucket d l2)).
    { apply (sortBy_unique byTimestamp timestamp).
      - apply byTimestamp_keyed.
      - apply Ties.
      - now apply bucket_Permutation. }
    now rewrite S.
  - intros l wd t Hwd. apply getTimecardsByDate_In in Hwd as (_ & -> & _).
    apply (sortBy_filter_key byTimestamp timestamp), byTimestamp_keyed.
Qed.

Lemma day_view_reorder_witness :
  getTimecardsByDate (api := utcDates) (svc := specService) (monday ++ tuesday) =
  getTimecardsByDate (api := utcDates) (svc := specService) (tuesday ++ rev monday).
Proof.
  apply (day_view_reorder utcDates specService).
  - rewrite Permutation_app_comm. apply Permutation_app_head, Permutation_rev.
  - repeat constructor; vm_compute; discriminate.
  - intros a b Ha Hb.
    simpl in Ha, Hb.
    repeat (destruct Ha as [<-|Ha]; [|]); try contradiction;
      repeat (destruct Hb as [<-|Hb]; [|]); try contradiction;
      vm_compute; intro H; first [reflexivity | discriminate H].
  - intro d. apply NoDup_map_bucket.
    vm_compute. repeat constructor; simpl; intuition discriminate.
Defined.

(** ** The summary as a sum over the days *)

#[global] Instance addSummary_Proper :
  Proper (Summary_eq ==> Summary_eq ==> Summary_eq) addSummary.
Proof.
  intros a a' (A1 & A2 & A3 & A4) b b' (B1 & B2 & B3 & B4).
  repeat split; simpl; lra.
Qed.

Lemma addSummary_comm (a b : Summary) : addSummary a b =s= addSummary b a.
Proof. repeat split; simpl; lra. Qed.

Lemma addSummary_assoc (a b c : Summary) :
  addSummary a (addSummary b c) =s= addSummary (addSummary a b) c.
Proof. repeat split; simpl; lra. Qed.

Lemma addSummary_initial_r (a : Summary) : addSummary a initialSummary =s= a.
Proof. repeat split; simpl; lra. Qed.

Lemma accumulateDay_add (acc : Summary) (h : Q) :
  accumulateDay acc h =s= addSummary acc (classify h).
Proof.
  unfold classify, accumulateDay.
  by_tier h; repeat split; simpl; lra.
Qed.

Lemma fold_accumulateDay_sum (hours : list Q) (acc : Summary) :
  fold_left accumulateDay hours acc =s=
  addSummary acc (sumBreakdowns (map classify hours)).
Proof.
  revert acc. induction hours as [|h hours IH]; intro acc; simpl.
  - symmetry. apply addSummary_initial_r.
  - rewrite IH, accumulateDay_add. symmetry. apply addSummary_assoc.
Qed.

Lemma sumDays_sum (hours : list Q) :
  sumDays hours =s= sumBreakdowns (map classify hours).
Proof.
  unfold sumDays. rewrite fold_accumulateDay_sum.
  rewrite addSummary_comm. apply addSummary_initial_r.
Qed.

Lemma sumBreakdowns_Permutation (l l' : list Summary) :
  Permutation l l' -> sumBreakdowns l =s= sumBreakdowns l'.
Proof.
  induction 1 as [|x l l' P IH|x y l|l l' l'' P1 IH1 P2 IH2]; simpl.
  - reflexivity.
  - now rewrite IH.
  - rewrite !addSummary_assoc. now rewrite (addSummary_comm y x).
  - now rewrite IH1.
Qed.

Lemma sumDays_Permutation (hours hours' : list Q) :
  Permutation hours hours' -> sumDays hours =s= sumDays hours'.
Proof.
  intro P. rewrite !sumDays_sum.
  apply sumBreakdowns_Permutation, Permutation_map, P.
Qed.

Section SummaryFacts.
Context {svc : TimeclockService}.

(** The summary is the loop body folded over the hours of the days, in
    the order of the keys. *)
Lemma summarise_sumDays grouped :
  NoDup (keys grouped) ->
  summarise grouped = sumDays (map (fun day => calculateDayHours (snd day)) grouped).
Proof.
  intro ND. unfold summarise, sumDays.
  rewrite <- (map_map snd calculateDayHours), <- (map_get_keys _ ND), map_map.
  clear ND. generalize initialSummary.
  induction (keys grouped) as [|d ks IH]; intro acc; simpl; [reflexivity | apply IH].
Qed.

Lemma calculateSummary_sumDays (timecards : list ClockEvent) :
  calculateSummary timecards =
  sumDays (map (fun d => calculateDayHours (bucket d timecards))
               (keys (groupByDate timecards))).
Proof.
  unfold calculateSummary, summarise, sumDays.
  generalize initialSummary.
  induction (keys (groupByDate timecards)) as [|d ks IH]; intro acc; simpl.
  - reflexivity.
  - rewrite groupByDate_get. apply IH.
Qed.
End SummaryFacts.

#[global] Instance classify_Proper : Proper (Qeq ==> Summary_eq) classify.
Proof.
  intros h k Hk. unfold classify. now rewrite Hk.
Qed.

Lemma sumBreakdowns_pointwise {A} (f g : A -> Summary) (l : list A) :
  (forall x, In x l -> f x =s= g x) ->
  sumBreakdowns (map f l) =s= sumBreakdowns (map g l).
Proof.
  induction l as [|x l IH]; simpl; intro H.
  - reflexivity.
  - rewrite (H x) by now left. rewrite IH; [reflexivity|].
    intros y Hy. apply H. now right.
Qed.

(** C5. The aggregate that the summary aggregator produces equals the
    bucket-wise sum of the per-day breakdowns of the days of its input;
    presenting the days in another order gives the same aggregate; two
    days with totals 9 and 13 hours aggregate to regular 16, overtime 5,
    double time 1 (total 22).  The summary hands each day's events to
    [calculateDayHours] in input order; where that gives the hours of the
    sorted day, the aggregate is also the sum of the breakdowns of the days
    of the day view. *)
Theorem summary_is_sum_of_days (svc : TimeclockService) :
  (forall timecards : list ClockEvent,
     calculateSummary timecards =s=
     sumBreakdowns (map (fun day => classify (calculateDayHours (snd day)))
                        (groupByDate timecards))) /\
  (forall days days' : list (string * list ClockEvent),
     NoDup (keys days) -> Permutation days days' ->
     summarise days =s= summarise days') /\
  (forall (timecards : list ClockEvent) (d1 d2 : string),
     keys (groupByDate timecards) = [d1; d2] ->
     calculateDayHours (bucket d1 timecards) == 9 ->
     calculateDayHours (bucket d2 timecards) == 13 ->
     calculateSummary timecards =s=
     {| totalHours := 22; regularHours := 16;
        overtimeHours := 5; doubleTimeHours := 1 |}) /\
  (forall (api : DateApi) (timecards : list ClockEvent),
     (forall d, In d (keys (groupByDate timecards)) ->
        calculateDayHours (sortBy byTimestamp (bucket d timecards)) ==
        calculateDayHours (bucket d timecards)) ->
     calculateSummary timecards =s=
     sumBreakdowns (map (fun wd => classify (day_totalHours wd))
                        (getTimecardsByDate timecards))).
Proof.
  split; [|split; [|split]].
  - intro timecards. unfold calculateSummary.
    rewrite (summarise_sumDays _ (groupByDate_keys_NoDup timecards)).
    rewrite sumDays_sum, map_map. reflexivity.
  - intros days days' ND P.
    assert (ND' : NoDup (keys days')).
    { eapply Permutation_NoDup; [|exact ND]. apply Permutation_map, P. }
    rewrite (summarise_sumDays _ ND), (summarise_sumDays _ ND').
    apply sumDays_Permutation, Permutation_map, P.
  - intros timecards d1 d2 K H1 H2.
    rewrite calculateSummary_sumDays, K. unfold sumDays. simpl.
    rewrite H1, H2. repeat split; reflexivity.
  - intros api timecards H.
    rewrite calculateSummary_sumDays, sumDays_sum, map_map.
    unfold getTimecardsByDate. rewrite map_map. simpl.
    etransitivity.
    + apply (sumBreakdowns_pointwise _
               (fun d => classify (calculateDayHours
                  (sortBy byTimestamp (get (groupByDate timecards) d))))).
      intros d Hd. rewrite groupByDate_get. now rewrite (H d Hd).
    + apply sumBreakdowns_Permutation, Permutation_map, Permutation_sym,
        sortBy_Permutation.
Qed.

Lemma summary_is_sum_of_days_witness :
  calculateSummary (svc := specService) (tuesday ++ wednesday) =s=
  {| totalHours := 22; regularHours := 16;
     overtimeHours := 5; doubleTimeHours := 1 |} /\
  calculateSummary (svc := specService) (tuesday ++ wednesday) =s=
  sumBreakdowns (map (fun wd => classify (day_totalHours wd))
                     (getTimecardsByDate (api := utcDates) (svc := specService)
                        (tuesday ++ wednesday))).
Proof.
  destruct (summary_is_sum_of_days specService) as (_ & _ & E & V).
  split.
  - apply E with (d1 := "2024-01-16") (d2 := "2024-01-17").
    + reflexivity.
    + vm_compute. reflexivity.
    + vm_compute. reflexivity.
  - apply (V utcDates). intros d Hd.
    destruct Hd as [<-|[<-|[]]]; vm_compute; reflexivity.
Defined.

(** ** Substring search *)

Lemma startsWith_spec (s q : string) :
  startsWith s q = true <-> exists post, s = (q ++ post)%string.
Proof.
  revert s. induction q as [|b q IH]; intro s; simpl.
  - split; [intros _; now exists s | reflexivity].
  - destruct s as [|a s].
    + split; [discriminate | intros (post & H); discriminate].
    + rewrite andb_true_iff, Ascii.eqb_eq, IH. split.
      * intros (-> & post & ->). now exists post.
      * intros (post & H). injection H as -> ->. split; [reflexivity | now exists post].
Qed.

Lemma includes_spec (s q : string) :
  includes s q = true <-> exists pre post, s = (pre ++ q ++ post)%string.
Proof.
  induction s as [|a s IH]; simpl; rewrite orb_true_iff.
  - split.
    + intros [H|H]; [|discriminate].
      apply startsWith_spec in H as (post & H). now exists EmptyString, post.
    + intros (pre & post & H). left. apply startsWith_spec.
      destruct pre; [now exists post | discriminate].
  - rewrite IH. split.
    + intros [H|(pre & post & ->)].
      * apply startsWith_spec in H as (post & H). now exists EmptyString, post.
      * now exists (String a pre), post.
    + intros (pre & post & H). destruct pre as [|c pre]; simpl in H.
      * left. apply startsWith_spec. now exists post.
      * right. injection H as -> ->. now exists pre, post.
Qed.

Lemma includes_ContainsCI (s q : string) :
  includes (toLowerCase s) (toLowerCase q) = true <-> ContainsCI s q.
Proof. apply includes_spec. Qed.

Lemma truthy_false (s : string) : truthy s = false <-> s = EmptyString.
Proof. destruct s; simpl; split; congruence. Qed.

(** ** The filter *)

Section FilterFacts.
Context {api : DateApi}.

Lemma matchesQuery_spec (q : string) (tc : ClockEvent) :
  matchesQuery q tc = true <->
  (exists j, job tc = Some j /\ ContainsCI (job_name j) q) \/
  (exists t, task tc = Some t /\ ContainsCI (task_name t) q) \/
  ContainsCI (type tc) q.
Proof.
  unfold matchesQuery. rewrite !orb_true_iff. split.
  - intros [[H|H]|H].
    + left. destruct (job tc) as [j|]; [|discriminate].
      exists j. split; [reflexivity | now apply includes_ContainsCI].
    + right; left. destruct (task tc) as [t|]; [|discriminate].
      exists t. split; [reflexivity | now apply includes_ContainsCI].
    + right; right. now apply includes_ContainsCI.
  - intros [(j & -> & H)|[(t & -> & H)|H]];
      apply includes_ContainsCI in H; auto.
Qed.

Lemma inRange_spec (s e : Z) (tc : ClockEvent) :
  inRange s e tc = true <->
  exists t, parseISO (date tc) = Some t /\ (s <= t <= e)%Z.
Proof.
  unfold inRange. destruct (parseISO (date tc)) as [t|].
  - rewrite andb_true_iff, !Z.leb_le. split.
    + intro H. now exists t.
    + intros (t' & [= <-] & H). exact H.
  - split; [discriminate | intros (t & [=] & _)].
Qed.

(** The two filters of [filterTimecards] as one predicate. *)
Lemma filtered_filter (now : Z) (p : Period) (q : string) (l : list ClockEvent) :
  filtered now p q l =
  filter (fun tc =>
            match periodRange now p with
            | Some (s, e) => inRange s e tc
            | None => true
            end && (negb (truthy q) || matchesQuery q tc)) l.
Proof.
  unfold filtered.
  assert (T : forall l' : list ClockEvent, filter (fun _ => true) l' = l').
  { induction l' as [|x l' IH]; simpl; congruence. }
  destruct (periodRange now p) as [[s e]|], (truthy q); simpl.
  - induction l as [|x l IH]; simpl; [reflexivity|].
    destruct (inRange s e x); simpl; [|exact IH].
    destruct (matchesQuery q x); now rewrite IH.
  - apply filter_ext. intro tc. now rewrite andb_true_r.
  - reflexivity.
  - symmetry. apply T.
Qed.
End FilterFacts.

(** C6. The period filter retains exactly the events whose attributed date
    lies in the closed interval of the selected window (the week of [now],
    the month of [now], or no bound) and which match the query, keeping
    their order: it is [filter keep] for a predicate [keep] that holds of
    an event iff its date is in the window and the query is empty or is
    contained, case-insensitively, in the job name, the task name or the
    event kind.  [keep] reads the attributed date and not the timestamp,
    and an event dated on the first or the last instant of the week is
    retained. *)
Theorem period_filter (api : DateApi) (now : Z) (p : Period) (q : string)
    (l : list ClockEvent) :
  exists keep : ClockEvent -> bool,
    filtered now p q l = filter keep l /\
    (forall tc, keep tc = true <-> InWindow now p tc /\ Matches q tc) /\
    (forall tc t, keep (withTimestamp t tc) = keep tc) /\
    (forall tc, In tc (filtered now p q l) <->
                In tc l /\ InWindow now p tc /\ Matches q tc) /\
    (forall tc, p = week -> In tc l -> Matches q tc ->
       (startOfWeek now <= endOfWeek now)%Z ->
       parseISO (date tc) = Some (startOfWeek now) \/
       parseISO (date tc) = Some (endOfWeek now) ->
       In tc (filtered now p q l)).
Proof.
  set (keep := fun tc =>
         match periodRange now p with
         | Some (s, e) => inRange s e tc
         | None => true
         end && (negb (truthy q) || matchesQuery q tc)).
  assert (K : forall tc, keep tc = true <-> InWindow now p tc /\ Matches q tc).
  { intro tc. unfold keep. rewrite andb_true_iff, orb_true_iff, negb_true_iff.
    rewrite truthy_false, matchesQuery_spec.
    assert (W : match periodRange now p with
                | Some (s, e) => inRange s e tc
                | None => true
                end = true <-> InWindow now p tc).
    { destruct p; simpl; try apply inRange_spec. tauto. }
    rewrite W. reflexivity. }
  assert (I : forall tc, In tc (filtered now p q l) <->
                         In tc l /\ InWindow now p tc /\ Matches q tc).
  { intro tc. rewrite filtered_filter. fold keep. now rewrite filter_In, K. }
  exists keep. split; [apply filtered_filter | split; [exact K | split; [|split]]].
  - intros tc t. reflexivity.
  - exact I.
  - intros tc -> Hin M Hle Hb. apply I. split; [assumption | split; [|assumption]].
    simpl. destruct Hb as [Hb|Hb]; eexists; (split; [exact Hb | lia]).
Qed.

Lemma period_filter_witness :
  In sunday (filtered (api := utcDates) (clock 19737 10 0) week "WARE"
               (saturday :: sunday :: monday)) /\
  In saturday (filtered (api := utcDates) (clock 19737 10 0) week "WARE"
                 (saturday :: sunday :: monday)).
Proof.
  destruct (period_filter utcDates (clock 19737 10 0) week "WARE"
              (saturday :: sunday :: monday)) as (keep & _ & _ & _ & I & B).
  assert (M : forall tc, In tc [saturday; sunday] -> Matches "WARE" tc).
  { intros tc Htc. right; left. exists {| job_name := "Warehouse" |}.
    split; [destruct Htc as [<-|[<-|[]]]; reflexivity|].
    now exists EmptyString, "house". }
  split.
  - apply B.
    + reflexivity.
    + simpl; auto.
    + apply M; simpl; auto.
    + vm_compute. discriminate.
    + left. reflexivity.
  - apply I. split; [simpl; auto | split].
    + exists (clock 19742 0 0). split; [reflexivity|].
      split; vm_compute; discriminate.
    + apply M; simpl; auto.
Defined.

(** ** Status of a day *)

Lemma existsb_hasStatus (s : string) (l : list ClockEvent) :
  existsb (hasStatus s) l = true <-> exists tc, In tc l /\ status tc = s.
Proof.
  rewrite existsb_exists. unfold hasStatus.
  split; intros (tc & Hin & H); exists tc; split; trivial;
    now apply String.eqb_eq.
Qed.

Lemma existsb_hasStatus_false (s : string) (l : list ClockEvent) :
  existsb (hasStatus s) l = false <-> forall tc, In tc l -> status tc <> s.
Proof.
  rewrite <- not_true_iff_false, existsb_hasStatus. split.
  - intros H tc Hin E. apply H. now exists tc.
  - intros H (tc & Hin & E). now apply (H tc).
Qed.

(** C8. The status of a day is approved if any of its events is approved,
    else submitted (shown as pending approval) if any is submitted, else
    draft; so a day with one submitted and one approved event is
    approved.  The code takes any list of events, the empty one is
    draft. *)
Theorem day_status (timecards : list ClockEvent) :
  (getStatusChip timecards = Approved <->
     exists tc, In tc timecards /\ status tc = "approved") /\
  (getStatusChip timecards = PendingApproval <->
     (forall tc, In tc timecards -> status tc <> "approved") /\
     exists tc, In tc timecards /\ status tc = "submitted") /\
  (getStatusChip timecards = Draft <->
     (forall tc, In tc timecards -> status tc <> "approved") /\
     (forall tc, In tc timecards -> status tc <> "submitted")) /\
  (forall a b, status a = "submitted" -> status b = "approved" ->
     getStatusChip [a; b] = Approved /\ getStatusChip [b; a] = Approved).
Proof.
  unfold getStatusChip.
  split; [|split; [|split]].
  - rewrite <- existsb_hasStatus.
    destruct (existsb (hasStatus "approved") timecards);
      [|destruct (existsb (hasStatus "submitted") timecards)];
      intuition congruence.
  - rewrite <- existsb_hasStatus, <- existsb_hasStatus_false.
    destruct (existsb (hasStatus "approved") timecards);
      [|destruct (existsb (hasStatus "submitted") timecards)];
      intuition congruence.
  - rewrite <- !existsb_hasStatus_false.
    destruct (existsb (hasStatus "approved") timecards);
      [|destruct (existsb (hasStatus "submitted") timecards)];
      intuition congruence.
  - intros a b Ha Hb. unfold hasStatus. simpl. rewrite Ha, Hb. simpl. split; reflexivity.
Qed.

Lemma day_status_witness : getStatusChip mixedDay = Approved.
Proof.
  destruct (day_status mixedDay) as (_ & _ & _ & H).
  apply (H (event "11" "2024-01-18" (clock 19740 8 0) "clock_in" "Office" "submitted")
           (event "12" "2024-01-18" (clock 19740 16 0) "clock_out" "Office" "approved"));
    reflexivity.
Defined.

(** ** Submission *)

Lemma submitted_or_approved_false (tc : ClockEvent) :
  submitted_or_approved tc = false <->
  status tc <> "submitted" /\ status tc <> "approved".
Proof.
  unfold submitted_or_approved, hasStatus.
  rewrite orb_false_iff, !String.eqb_neq. reflexivity.
Qed.

Lemma submitDisabled_false (timecards : list ClockEvent) :
  submitDisabled timecards = false <->
  forall tc, In tc timecards ->
             status tc <> "submitted" /\ status tc <> "approved".
Proof.
  unfold submitDisabled. rewrite <- not_true_iff_false, existsb_exists. split.
  - intros H tc Hin. apply submitted_or_approved_false.
    destruct (submitted_or_approved tc) eqn:E; [|reflexivity].
    exfalso. apply H. exists tc. auto.
  - intros H (tc & Hin & E).
    apply H, submitted_or_approved_false in Hin.
    unfold submitted_or_approved in Hin. congruence.
Qed.

Lemma spec_guard_true (db : list ClockEvent) (d : string) :
  spec_guard db d = true <-> Unsubmitted d db.
Proof.
  unfold spec_guard, Unsubmitted.
  rewrite negb_true_iff, <- not_true_iff_false, existsb_exists. split.
  - intros H tc Hin Hd. apply submitted_or_approved_false.
    destruct (submitted_or_approved tc) eqn:E; [|reflexivity].
    exfalso. apply H. exists tc. split; [assumption|].
    apply andb_true_iff. split; [now apply String.eqb_eq | exact E].
  - intros H (tc & Hin & E). apply andb_true_iff in E as [Ed Es].
    apply String.eqb_eq in Ed.
    apply (H tc Hin), submitted_or_approved_false in Ed. congruence.
Qed.

Lemma spec_guard_after_submit (db : list ClockEvent) (d : string) :
  (exists tc, In tc db /\ date tc = d) ->
  spec_guard (map (markSubmitted d) db) d = false.
Proof.
  intros (tc & Hin & Hd). unfold spec_guard.
  apply negb_false_iff, existsb_exists.
  exists (markSubmitted d tc). split; [now apply in_map|].
  unfold markSubmitted. subst d. rewrite String.eqb_refl. simpl.
  now rewrite String.eqb_refl.
Qed.

Lemma markSubmitted_date (d : string) (tc : ClockEvent) :
  date (markSubmitted d tc) = date tc.
Proof. unfold markSubmitted. destruct (String.eqb (date tc) d); reflexivity. Qed.

Lemma markSubmitted_status (d : string) (tc : ClockEvent) :
  date tc = d -> status (markSubmitted d tc) = "submitted".
Proof.
  intros <-. unfold markSubmitted. now rewrite String.eqb_refl.
Qed.

Section ButtonFacts.
Context {api : DateApi} {svc : TimeclockService}.

(** The events of a day card are the events of its date. *)
Lemma day_timecards_In (l : list ClockEvent) (wd : WorkDay) (tc : ClockEvent) :
  In wd (getTimecardsByDate l) ->
  In tc (day_timecards wd) <-> In tc l /\ date tc = day_date wd.
Proof.
  intro Hwd. apply getTimecardsByDate_In in Hwd as (_ & -> & _).
  assert (B : In tc (bucket (day_date wd) l) <-> In tc l /\ date tc = day_date wd).
  { unfold bucket. rewrite filter_In, String.eqb_eq. reflexivity. }
  rewrite <- B.
  split; apply Permutation_in; [|apply Permutation_sym]; apply sortBy_Permutation.
Qed.

Lemma submit_enabled_iff (l : list ClockEvent) (wd : WorkDay) :
  In wd (getTimecardsByDate l) ->
  submitDisabled (day_timecards wd) = false <-> Unsubmitted (day_date wd) l.
Proof.
  intro Hwd. rewrite submitDisabled_false. unfold Unsubmitted. split.
  - intros H tc Hin Hd. apply H. apply (day_timecards_In l wd tc Hwd). auto.
  - intros H tc Hin. apply (day_timecards_In l wd tc Hwd) in Hin as [Hin Hd]. auto.
Qed.

Lemma submit_disabled_after (db : list ClockEvent) (d : string) (wd : WorkDay) :
  In wd (getTimecardsByDate (map (markSubmitted d) db)) ->
  day_date wd = d ->
  submitDisabled (day_timecards wd) = true.
Proof.
  intros Hwd Hd. pose proof Hwd as Hk.
  apply getTimecardsByDate_In in Hk as (Hk & _ & _).
  apply groupByDate_keys_In in Hk as (tc' & Hin & Hdate).
  unfold submitDisabled. apply existsb_exists. exists tc'. split.
  - apply (day_timecards_In _ wd tc' Hwd). auto.
  - apply in_map_iff in Hin as (tc & <- & Hin).
    rewrite markSubmitted_date in Hdate.
    unfold hasStatus. rewrite markSubmitted_status by congruence. reflexivity.
Qed.
End ButtonFacts.

(** C7. Submission of a date is permitted iff no event of that date is
    already submitted or approved: the Submit button of a day card is
    enabled iff none of the events of that date in the displayed collection
    is, and the service accepts the date iff none of the store's events of
    that date is.  A refusal by the service reaches the user as an error
    alert, with the store and the loaded events unchanged; so pressing
    Submit twice for a date that has events gives the success alert and
    then the conflict alert, and after the first the button of that day is
    disabled. *)
Theorem submission_guard :
  (forall (api : DateApi) (svc : TimeclockService) (l : list ClockEvent)
          (wd : WorkDay),
     In wd (getTimecardsByDate l) ->
     submitDisabled (day_timecards wd) = false <-> Unsubmitted (day_date wd) l) /\
  (forall (db : list ClockEvent) (d : string),
     (exists db', spec_submitForApproval db d = inr db') <-> Unsubmitted d db) /\
  (forall (svc : TimeclockService) (db : Store) (loaded : list ClockEvent)
          (d : string) (e : Error),
     submitForApproval db d = inl e ->
     exists text, onPressSubmit db loaded d = (AlertError text, db, loaded)) /\
  (forall (db loaded : list ClockEvent) (d : string),
     (exists tc, In tc db /\ date tc = d) ->
     Unsubmitted d db ->
     exists db',
       onPressSubmit (svc := specService) db loaded d =
         (AlertSuccess "Timecard submitted for approval", db', db') /\
       onPressSubmit (svc := specService) db' db' d =
         (AlertError "already submitted", db', db') /\
       (forall (api : DateApi) (wd : WorkDay),
          In wd (getTimecardsByDate (svc := specService) db') ->
          day_date wd = d -> submitDisabled (day_timecards wd) = true)).
Proof.
  split; [|split; [|split]].
  - intros api svc l wd. apply submit_enabled_iff.
  - intros db d. unfold spec_submitForApproval.
    rewrite <- spec_guard_true.
    destruct (spec_guard db d); split; try congruence.
    + intros _. eexists. reflexivity.
    + intros (db' & H). discriminate.
  - intros svc db loaded d e H. unfold onPressSubmit. rewrite H.
    eexists. reflexivity.
  - intros db loaded d Hex Hun.
    exists (map (markSubmitted d) db). unfold onPressSubmit. simpl.
    unfold spec_submitForApproval.
    apply spec_guard_true in Hun. rewrite Hun.
    rewrite (spec_guard_after_submit db d Hex).
    split; [reflexivity | split; [reflexivity|]].
    intros api wd. apply submit_disabled_after.
Qed.

Lemma submission_guard_witness :
  exists db',
    onPressSubmit (svc := specService) (monday ++ tuesday) [] "2024-01-15" =
      (AlertSuccess "Timecard submitted for approval", db', db') /\
    onPressSubmit (svc := specService) db' db' "2024-01-15" =
      (AlertError "already submitted", db', db').
Proof.
  destruct submission_guard as (_ & _ & _ & H).
  destruct (H (monday ++ tuesday) [] "2024-01-15") as (db' & H1 & H2 & _).
  - eexists. split; [left; reflexivity | reflexivity].
  - apply spec_guard_true. reflexivity.
  - exists db'. split; assumption.
Defined.

(** ** The hours of a day *)

Lemma scanEvent_clock_in_worked (st : Scan) (tc : ClockEvent) :
  type tc = "clock_in" -> workedMs (scanEvent st tc) = workedMs st.
Proof.
  intro H. unfold scanEvent. rewrite H. simpl.
  destruct (clockedIn st); reflexivity.
Qed.

Lemma scanEvent_clock_out_start (tc : ClockEvent) :
  type tc = "clock_out" -> scanEvent scanStart tc = scanStart.
Proof.
  intro H. unfold scanEvent. rewrite H. reflexivity.
Qed.

(** C3. The hours calculator of the spec, on the events of one day in
    timestamp order: no event adds time while the clock is stopped or on
    lunch; a [clock_in], [lunch_out], [lunch_in], [clock_out] sequence gives the span from clock-in to clock-out less the lunch
    period, 8 hours for 08:00, 12:00, 12:30, 16:30; a [clock_out] with no
    [clock_in] before it gives 0 and is ignored; a [clock_in] that is not
    closed adds nothing. *)
Theorem hours_calculator :
  (forall (st : Scan) (tc : ClockEvent),
     clockedIn st = false \/ onLunch st = true ->
     workedMs (scanEvent st tc) = workedMs st) /\
  (forall e1 e2 e3 e4 : ClockEvent,
     type e1 = "clock_in" -> type e2 = "lunch_out" ->
     type e3 = "lunch_in" -> type e4 = "clock_out" ->
     spec_calculateDayHours [e1; e2; e3; e4] ==
     Qmake ((timestamp e4 - timestamp e1) - (timestamp e3 - timestamp e2)) msPerHour) /\
  spec_calculateDayHours monday == 8 /\
  (forall (tc : ClockEvent) (l : list ClockEvent),
     type tc = "clock_out" ->
     spec_calculateDayHours [tc] == 0 /\
     spec_calculateDayHours (tc :: l) = spec_calculateDayHours l) /\
  (forall (tc : ClockEvent) (l : list ClockEvent),
     type tc = "clock_in" ->
     spec_calculateDayHours [tc] == 0 /\
     spec_calculateDayHours (l ++ [tc]) = spec_calculateDayHours l).
Proof.
  split; [|split; [|split; [|split]]].
  - intros st tc H. unfold scanEvent.
    destruct (clockedIn st) eqn:C, (onLunch st) eqn:L;
      destruct H as [H|H]; try discriminate H;
      repeat match goal with
             | |- context [String.eqb ?a ?b] => destruct (String.eqb a b)
             end; reflexivity.
  - intros e1 e2 e3 e4 H1 H2 H3 H4.
    unfold spec_calculateDayHours. simpl. unfold scanEvent.
    rewrite H1, H2, H3, H4. simpl.
    unfold Qeq. simpl. lia.
  - vm_compute. reflexivity.
  - intros tc l H. unfold spec_calculateDayHours. simpl.
    rewrite (scanEvent_clock_out_start tc H). split; reflexivity.
  - intros tc l H. unfold spec_calculateDayHours. split.
    + simpl. rewrite (scanEvent_clock_in_worked _ _ H). reflexivity.
    + rewrite fold_left_app. simpl.
      now rewrite (scanEvent_clock_in_worked _ _ H).
Qed.

Lemma hours_calculator_witness :
  spec_calculateDayHours monday ==
  Qmake ((clock 19737 16 30 - clock 19737 8 0)
           - (clock 19737 12 30 - clock 19737 12 0)) msPerHour.
Proof.
  destruct hours_calculator as (_ & H & _).
  apply (H (event "1" "2024-01-15" (clock 19737 8 0) "clock_in" "Warehouse" "draft")
           (event "2" "2024-01-15" (clock 19737 12 0) "lunch_out" "Warehouse" "draft")
           (event "3" "2024-01-15" (clock 19737 12 30) "lunch_in" "Warehouse" "draft")
           (event "4" "2024-01-15" (clock 19737 16 30) "clock_out" "Warehouse" "draft"));
    reflexivity.
Defined.

(** ** The search query and the hours of a day *)

Lemma bucket_filter (f : ClockEvent -> bool) (d : string) (l : list ClockEvent) :
  bucket d (filter f l) = filter f (bucket d l).
Proof.
  unfold bucket. induction l as [|x l IH]; simpl; [reflexivity|].
  destruct (f x) eqn:Ef, (String.eqb (date x) d) eqn:Ed; simpl;
    rewrite ?Ef, ?Ed, IH; reflexivity.
Qed.

Lemma filtered_query {api : DateApi} (now : Z) (p : Period) (q : string)
    (l : list ClockEvent) :
  q <> EmptyString ->
  filtered now p q l = filter (matchesQuery q) (filtered now p EmptyString l).
Proof.
  intro Hq. unfold filtered. simpl.
  destruct q; [congruence | reflexivity].
Qed.

(** C10. The search query is applied to the single events before they are
    grouped: with a non-empty query, the events of a day in the day view
    are the matching events of that date, the hours of the day in the day
    view are computed from these alone, and the summary adds up, day by
    day, the hours computed from the matching events of the date.  On a
    day of 9 hours the query "clock_in" keeps the clock-in and drops the
    clock-out, and the day shows 0 hours in the day view and in the
    summary. *)
Theorem query_applies_before_grouping :
  (forall (api : DateApi) (svc : TimeclockService) (now : Z) (st : Screen),
     searchQuery st <> EmptyString ->
     let q := searchQuery st in
     let inPeriod := filtered now (selectedPeriod st) EmptyString (timecards st) in
     let st' := filterTimecards now st in
     filteredTimecards st' = filter (matchesQuery q) inPeriod /\
     (forall wd, In wd (dailyTimecards st') ->
        day_timecards wd =
          sortBy byTimestamp (filter (matchesQuery q) (bucket (day_date wd) inPeriod)) /\
        day_totalHours wd =
          calculateDayHours
            (sortBy byTimestamp (filter (matchesQuery q) (bucket (day_date wd) inPeriod)))) /\
     summary st' =
       sumDays (map (fun d => calculateDayHours
                                (filter (matchesQuery q) (bucket d inPeriod)))
                    (keys (groupByDate (filteredTimecards st'))))) /\
  (map day_totalHours
       (dailyTimecards (api := utcDates) (svc := specService)
          (filterTimecards (api := utcDates) (svc := specService) 0 (tuesdayScreen "")))
     = [Qmake 32400000 msPerHour] /\
   map day_totalHours
       (dailyTimecards (api := utcDates) (svc := specService)
          (filterTimecards (api := utcDates) (svc := specService) 0
             (tuesdayScreen "clock_in")))
     = [Qmake 0 msPerHour] /\
   totalHours (summary (filterTimecards (api := utcDates) (svc := specService) 0
                          (tuesdayScreen ""))) == 9 /\
   totalHours (summary (filterTimecards (api := utcDates) (svc := specService) 0
                          (tuesdayScreen "clock_in"))) == 0).
Proof.
  split.
  - intros api svc now st Hq q inPeriod st'.
    assert (F : filteredTimecards st' = filter (matchesQuery q) inPeriod).
    { unfold st', filterTimecards. simpl. now apply filtered_query. }
    split; [exact F | split].
    + intros wd Hwd. unfold dailyTimecards in Hwd.
      apply getTimecardsByDate_In in Hwd as (_ & T & H).
      rewrite F, bucket_filter in T. rewrite H, T. split; reflexivity.
    + assert (S : summary st' = calculateSummary (filteredTimecards st'))
        by reflexivity.
      rewrite S, calculateSummary_sumDays. f_equal.
      apply map_ext. intro d. now rewrite F, bucket_filter.
  - repeat split; vm_compute; reflexivity.
Qed.

Lemma query_applies_before_grouping_witness :
  summary (filterTimecards (api := utcDates) (svc := specService) 0
             (tuesdayScreen "clock_in")) =
  sumDays (map (fun d => spec_calculateDayHours
                           (filter (matchesQuery "clock_in") (bucket d tuesday)))
               ["2024-01-16"]).
Proof.
  destruct query_applies_before_grouping as (H & _).
  destruct (H utcDates specService 0%Z (tuesdayScreen "clock_in")) as (_ & _ & S).
  - discriminate.
  - exact S.
Defined.

(** * Further properties of the code *)

(** ** The classifier and the summary *)

Lemma classify_fields (h : Q) :
  (gtb h 12 = true /\ 12 < h /\
   regularHours (classify h) == 8 /\ overtimeHours (classify h) == 4 /\
   doubleTimeHours (classify h) == h - 12) \/
  (gtb h 12 = false /\ gtb h 8 = true /\ 8 < h /\ h <= 12 /\
   regularHours (classify h) == 8 /\ overtimeHours (classify h) == h - 8 /\
   doubleTimeHours (classify h) == 0) \/
  (gtb h 12 = false /\ gtb h 8 = false /\ h <= 8 /\
   regularHours (classify h) == h /\ overtimeHours (classify h) == 0 /\
   doubleTimeHours (classify h) == 0).
Proof.
  unfold classify, accumulateDay.
  destruct (gtb h 12) eqn:E12; [|destruct (gtb h 8) eqn:E8].
  - left. apply gtb_true in E12. simpl. repeat split; trivial; lra.
  - right; left. apply gtb_false in E12. apply gtb_true in E8.
    simpl. repeat split; trivial; lra.
  - right; right. apply gtb_false in E12. apply gtb_false in E8.
    simpl. repeat split; trivial; lra.
Qed.

(** X1. More hours never lower a bucket: for [h <= h'] each of the regular,
    overtime and double-time hours of a day of [h] hours is at most that of
    a day of [h'] hours. *)
Theorem classify_monotone (h h' : Q) :
  h <= h' ->
  regularHours (classify h) <= regularHours (classify h') /\
  overtimeHours (classify h) <= overtimeHours (classify h') /\
  doubleTimeHours (classify h) <= doubleTimeHours (classify h').
Proof.
  intro H.
  destruct (classify_fields h) as [(_ & A & R & O & D)|[(_ & _ & A & B & R & O & D)|(_ & _ & A & R & O & D)]];
    destruct (classify_fields h') as [(_ & A' & R' & O' & D')|[(_ & _ & A' & B' & R' & O' & D')|(_ & _ & A' & R' & O' & D')]];
    rewrite R, O, D, R', O', D'; repeat split; lra.
Qed.

Lemma classify_monotone_witness :
  overtimeHours (classify 9) <= overtimeHours (classify 13).
Proof.
  apply (classify_monotone 9 13). lra.
Defined.

Lemma sumDays_snoc (hours : list Q) (h : Q) :
  sumDays (hours ++ [h]) = accumulateDay (sumDays hours) h.
Proof. unfold sumDays. now rewrite fold_left_app. Qed.

Lemma sumDays_bounds (hours : list Q) :
  Forall (fun h => 0 <= h) hours ->
  0 <= regularHours (sumDays hours) /\
  regularHours (sumDays hours) <= 8 * inject_Z (Z.of_nat (List.length hours)) /\
  0 <= overtimeHours (sumDays hours) /\
  overtimeHours (sumDays hours) <= 4 * inject_Z (Z.of_nat (List.length hours)) /\
  0 <= doubleTimeHours (sumDays hours).
Proof.
  induction hours as [|h hours IH] using rev_ind; intro F.
  - unfold sumDays. cbn. change (inject_Z 0) with 0. repeat split; lra.
  - apply Forall_app in F as [F Fh]. inversion Fh as [|? ? Hh _]; subst.
    destruct (IH F) as (R0 & R8 & O0 & O4 & D0). clear IH.
    rewrite sumDays_snoc, length_app. simpl List.length.
    rewrite Nat2Z.inj_add, inject_Z_plus.
    change (inject_Z (Z.of_nat 1)) with 1.
    destruct (accumulateDay_add (sumDays hours) h) as (_ & R & O & D).
    rewrite R, O, D. simpl.
    destruct (classify_fields h) as [(_ & A & Rh & Oh & Dh)|[(_ & _ & A & B & Rh & Oh & Dh)|(_ & _ & A & Rh & Oh & Dh)]];
      rewrite Rh, Oh, Dh; repeat split; lra.
Qed.

Lemma sumDays_positive (hours : list Q) :
  0 <= overtimeHours (sumDays hours) /\
  0 <= doubleTimeHours (sumDays hours) /\
  (0 < overtimeHours (sumDays hours) <-> exists h, In h hours /\ 8 < h) /\
  (0 < doubleTimeHours (sumDays hours) <-> exists h, In h hours /\ 12 < h).
Proof.
  induction hours as [|h hours IH] using rev_ind.
  - unfold sumDays. simpl. repeat split; try lra;
      try (intro H; exfalso; lra); intros (h & [] & _).
  - destruct IH as (O0 & D0 & IO & ID).
    rewrite sumDays_snoc.
    destruct (accumulateDay_add (sumDays hours) h) as (_ & _ & O & D).
    rewrite O, D. simpl.
    assert (EO : forall P : Q -> Prop,
               (exists x, In x (hours ++ [h]) /\ P x) <->
               (exists x, In x hours /\ P x) \/ P h).
    { intro P. split.
      - intros (x & Hin & Px). apply in_app_or in Hin as [Hin|[<-|[]]]; eauto.
      - intros [(x & Hin & Px)|Ph].
        + exists x. split; [apply in_or_app; now left | assumption].
        + exists h. split; [apply in_or_app; right; now left | assumption]. }
    rewrite (EO (fun x => 8 < x)), (EO (fun x => 12 < x)), <- IO, <- ID.
    destruct (classify_fields h) as [(_ & A & Rh & Oh & Dh)|[(_ & _ & A & B & Rh & Oh & Dh)|(_ & _ & A & Rh & Oh & Dh)]];
      rewrite Oh, Dh; repeat split; try lra; intros; try lra;
      repeat match goal with H : _ \/ _ |- _ => destruct H end; lra.
Qed.

(** X2. When the hours of every day are non-negative, every bucket of the
    summary is non-negative, the regular hours are at most 8 per day and the
    overtime hours at most 4 per day, the days being the distinct dates of
    the events. *)
Theorem summary_bounds (svc : TimeclockService) (timecards : list ClockEvent) :
  (forall d, In d (keys (groupByDate timecards)) ->
             0 <= calculateDayHours (bucket d timecards)) ->
  let n := inject_Z (Z.of_nat (List.length (keys (groupByDate timecards)))) in
  0 <= regularHours (calculateSummary timecards) /\
  regularHours (calculateSummary timecards) <= 8 * n /\
  0 <= overtimeHours (calculateSummary timecards) /\
  overtimeHours (calculateSummary timecards) <= 4 * n /\
  0 <= doubleTimeHours (calculateSummary timecards) /\
  0 <= totalHours (calculateSummary timecards).
Proof.
  intros H n.
  assert (B : balanced (calculateSummary timecards)).
  { unfold calculateSummary, summarise.
    apply (fold_accumulateDay_balanced
             (fun d => calculateDayHours (get (groupByDate timecards) d))).
    unfold balanced. simpl. lra. }
  unfold balanced in B. rewrite B. clear B.
  rewrite calculateSummary_sumDays. unfold n.
  rewrite <- (length_map (fun d => calculateDayHours (bucket d timecards))).
  destruct (sumDays_bounds
              (map (fun d => calculateDayHours (bucket d timecards))
                   (keys (groupByDate timecards)))) as (R0 & R8 & O0 & O4 & D0).
  { rewrite Forall_map, Forall_forall. exact H. }
  repeat split; trivial; lra.
Qed.

Lemma summary_bounds_witness :
  regularHours (calculateSummary (svc := specService) (tuesday ++ wednesday))
    <= 8 * inject_Z 2.
Proof.
  apply (summary_bounds specService (tuesday ++ wednesday)).
  intros d [<-|[<-|[]]]; vm_compute; discriminate.
Defined.

(** X3. The summary reports overtime exactly when the hours of some day
    exceed 8, and double time exactly when the hours of some day exceed 12;
    neither is ever negative. *)
Theorem overtime_reported_iff (svc : TimeclockService) (timecards : list ClockEvent) :
  0 <= overtimeHours (calculateSummary timecards) /\
  0 <= doubleTimeHours (calculateSummary timecards) /\
  (0 < overtimeHours (calculateSummary timecards) <->
   exists d, In d (keys (groupByDate timecards)) /\
             8 < calculateDayHours (bucket d timecards)) /\
  (0 < doubleTimeHours (calculateSummary timecards) <->
   exists d, In d (keys (groupByDate timecards)) /\
             12 < calculateDayHours (bucket d timecards)).
Proof.
  rewrite calculateSummary_sumDays.
  destruct (sumDays_positive
              (map (fun d => calculateDayHours (bucket d timecards))
                   (keys (groupByDate timecards)))) as (O0 & D0 & IO & ID).
  repeat split; trivial.
  - intro H. apply IO in H as (h & Hin & Hh).
    apply in_map_iff in Hin as (d & <- & Hd). now exists d.
  - intros (d & Hd & Hh). apply IO.
    exists (calculateDayHours (bucket d timecards)). split; [|assumption].
    apply in_map_iff. now exists d.
  - intro H. apply ID in H as (h & Hin & Hh).
    apply in_map_iff in Hin as (d & <- & Hd). now exists d.
  - intros (d & Hd & Hh). apply ID.
    exists (calculateDayHours (bucket d timecards)). split; [|assumption].
    apply in_map_iff. now exists d.
Qed.

Lemma overtime_reported_iff_witness :
  0 < overtimeHours (calculateSummary (svc := specService) (tuesday ++ wednesday)).
Proof.
  destruct (overtime_reported_iff specService (tuesday ++ wednesday))
    as (_ & _ & [_ H] & _).
  apply H. exists "2024-01-16". split; [now left|].
  vm_compute. reflexivity.
Defined.

(** ** The day cards *)

Section DayCards.
Context {api : DateApi} {svc : TimeclockService}.

Lemma groupByDate_keys_nil (l : list ClockEvent) :
  keys (groupByDate l) = [] <-> l = [].
Proof.
  split.
  - intro H. destruct l as [|tc l]; [reflexivity|].
    assert (Hin : In (date tc) (keys (groupByDate (tc :: l)))).
    { apply groupByDate_keys_In. exists tc. split; [now left | reflexivity]. }
    rewrite H in Hin. contradiction.
  - intros ->. reflexivity.
Qed.

Lemma getTimecardsByDate_length (l : list ClockEvent) :
  List.length (getTimecardsByDate l) = List.length (keys (groupByDate l)).
Proof.
  unfold getTimecardsByDate. rewrite length_map.
  apply Permutation_length, sortBy_Permutation.
Qed.
End DayCards.

(** X4. The day view is empty exactly when there is no filtered event, so
    the "No timecards found" card shows exactly then; a day card always has
    at least one event, and there are never more day cards than events. *)
Theorem day_cards_nonempty (api : DateApi) (svc : TimeclockService) :
  (forall st : Screen,
     showsEmptyCard st = true <-> filteredTimecards st = []) /\
  (forall (l : list ClockEvent) (wd : WorkDay),
     In wd (getTimecardsByDate l) -> day_timecards wd <> []) /\
  (forall l : list ClockEvent,
     (List.length (getTimecardsByDate l) <= List.length l)%nat).
Proof.
  split; [|split].
  - intro st. unfold showsEmptyCard, dailyTimecards.
    rewrite Nat.eqb_eq, getTimecardsByDate_length, length_zero_iff_nil.
    apply groupByDate_keys_nil.
  - intros l wd Hwd E. pose proof Hwd as Hk.
    apply getTimecardsByDate_In in Hk as (Hk & _ & _).
    apply groupByDate_keys_In in Hk as (tc & Hin & Hd).
    assert (Htc : In tc (day_timecards wd)).
    { apply (day_timecards_In l wd tc Hwd). auto. }
    rewrite E in Htc. contradiction.
  - intro l. rewrite getTimecardsByDate_length.
    assert (I : incl (keys (groupByDate l)) (map date l)).
    { intros d Hd. apply groupByDate_keys_In in Hd as (tc & Hin & <-).
      now apply in_map. }
    rewrite <- (length_map date l).
    apply NoDup_incl_length; [apply groupByDate_keys_NoDup | exact I].
Qed.

Lemma day_cards_nonempty_witness :
  showsEmptyCard (api := utcDates) (svc := specService)
    (filterTimecards (api := utcDates) (svc := specService) 0
       (tuesdayScreen "lunch")) = true.
Proof.
  destruct (day_cards_nonempty utcDates specService) as (H & _).
  apply H. vm_compute. reflexivity.
Defined.

(** ** Refining the search *)

Lemma toLowerCase_app (a b : string) :
  toLowerCase (a ++ b)%string = (toLowerCase a ++ toLowerCase b)%string.
Proof.
  induction a as [|c a IH]; simpl; [reflexivity | now rewrite IH].
Qed.

Lemma string_app_assoc (a b c : string) :
  ((a ++ b) ++ c)%string = (a ++ (b ++ c))%string.
Proof.
  induction a as [|x a IH]; simpl; [reflexivity | now rewrite IH].
Qed.

Lemma ContainsCI_narrow (s pre q post : string) :
  ContainsCI s (pre ++ q ++ post) -> ContainsCI s q.
Proof.
  intros (a & b & H). rewrite !toLowerCase_app in H.
  exists (a ++ toLowerCase pre)%string, (toLowerCase post ++ b)%string.
  rewrite H, !string_app_assoc. reflexivity.
Qed.

Lemma filter_filter_imp {A} (f g : A -> bool) (l : list A) :
  (forall x, f x = true -> g x = true) ->
  filter f (filter g l) = filter f l.
Proof.
  intro H. induction l as [|x l IH]; simpl; [reflexivity|].
  destruct (g x) eqn:G; simpl.
  - now rewrite IH.
  - destruct (f x) eqn:F; [|exact IH].
    apply H in F. congruence.
Qed.

Lemma filter_filter_andb {A} (f g : A -> bool) (l : list A) :
  filter f (filter g l) = filter (fun x => f x && g x) l.
Proof.
  induction l as [|x l IH]; simpl; [reflexivity|].
  destruct (g x) eqn:G; simpl.
  - rewrite andb_true_r. destruct (f x); now rewrite IH.
  - now rewrite andb_false_r.
Qed.

Lemma ContainsCI_trans (s q' q : string) :
  ContainsCI s q' -> ContainsCI q' q -> ContainsCI s q.
Proof.
  intros (a & b & H) (c & d & K). rewrite K in H.
  exists (a ++ c)%string, (d ++ b)%string.
  rewrite H, !string_app_assoc. reflexivity.
Qed.

Lemma toLowerCase_nil (s : string) : toLowerCase s = EmptyString -> s = EmptyString.
Proof. destruct s; [reflexivity | discriminate]. Qed.

Lemma ContainsCI_truthy (q' q : string) :
  ContainsCI q' q -> truthy q = true -> truthy q' = true.
Proof.
  intros (a & b & H) T. destruct q' as [|c q']; [|reflexivity].
  simpl in H. destruct a; [|discriminate].
  destruct q; [discriminate T | discriminate H].
Qed.

Section Refine.
Context {api : DateApi}.

Lemma matchesQuery_narrow (q' q : string) (tc : ClockEvent) :
  ContainsCI q' q -> matchesQuery q' tc = true -> matchesQuery q tc = true.
Proof.
  intro C. rewrite !matchesQuery_spec.
  intros [(j & Hj & H)|[(t & Ht & H)|H]];
    apply (fun H => ContainsCI_trans _ _ _ H C) in H; eauto.
Qed.

Lemma filtered_twice (now : Z) (p : Period) (q : string) (l : list ClockEvent) :
  filtered now p q (filtered now p q l) = filtered now p q l.
Proof.
  rewrite !filtered_filter. now apply filter_filter_imp.
Qed.
End Refine.

(** X5. Refining the search is searching within the results: for a new
    query that contains the current one, case-insensitively, filtering all
    events gives the same as searching the currently filtered events for
    the new query, so typing on never brings an event back; and filtering
    the filtered events again changes nothing. *)
Theorem search_within_results (api : DateApi) (now : Z) (p : Period)
    (q' q : string) (l : list ClockEvent) :
  ContainsCI q' q ->
  filtered now p q' l = filtered now all q' (filtered now p q l) /\
  (forall tc, In tc (filtered now p q' l) -> In tc (filtered now p q l)) /\
  filtered now p q (filtered now p q l) = filtered now p q l.
Proof.
  intro C.
  assert (E : filtered now p q' l = filtered now all q' (filtered now p q l)).
  { rewrite !filtered_filter. simpl. rewrite filter_filter_andb.
    apply filter_ext. intro tc.
    destruct (match periodRange now p with
              | Some (s, e) => inRange s e tc
              | None => true
              end); simpl; [|now rewrite andb_false_r].
    destruct (negb (truthy q') || matchesQuery q' tc) eqn:M; [|reflexivity].
    simpl. symmetry.
    destruct (truthy q) eqn:Tq; [|reflexivity]. simpl.
    apply orb_true_iff in M as [M|M].
    - apply negb_true_iff in M.
      rewrite (ContainsCI_truthy q' q C Tq) in M. discriminate.
    - now apply (matchesQuery_narrow q' q tc C). }
  split; [exact E | split; [|apply filtered_twice]].
  intros tc H. rewrite E in H. rewrite filtered_filter in H.
  now apply filter_In in H.
Qed.

(** ** The kind of an event as displayed *)














(** ** Icons and colours *)




Lemma search_within_results_witness :
  In sunday (filtered (api := utcDates) (clock 19737 10 0) week "WARE"
               (saturday :: sunday :: monday)).
Proof.
  destruct (search_within_results utcDates (clock 19737 10 0) week
              "warehouse" "WARE" (saturday :: sunday :: monday)) as (_ & H & _).
  - now exists EmptyString, "house".
  - apply H. vm_compute. auto.
Defined.

(** ** The photo viewer *)

Lemma navigatePhoto_valid (photos : list Photo) (direction : string) (i : Z) :
  validIndex photos i -> validIndex photos (navigatePhoto photos direction i).
Proof.
  unfold validIndex, navigatePhoto. intro V.
  destruct (String.eqb direction "next"); simpl.
  - destruct (Z.ltb_spec i (count photos - 1)); [lia|].
    destruct (String.eqb direction "prev"); simpl; [|lia].
    destruct (Z.ltb_spec 0 i); lia.
  - destruct (String.eqb direction "prev"); simpl; [|lia].
    destruct (Z.ltb_spec 0 i); lia.
Qed.

Lemma viewerPress_valid (photos : list Photo) (p : ViewerPress) (i : Z) :
  validIndex photos i -> pressable photos p ->
  validIndex photos (viewerPress photos i p).
Proof.
  destruct p as [direction|index]; simpl; intros V P.
  - now apply navigatePhoto_valid.
  - unfold validIndex, count. lia.
Qed.

Lemma currentPhoto_valid (photos : list Photo) (i : Z) :
  validIndex photos i <-> exists photo, currentPhoto photos i = Some photo.
Proof.
  unfold validIndex, currentPhoto, count. split.
  - intros [H0 Hn]. destruct (Z.ltb_spec i 0); [lia|].
    destruct (nth_error photos (Z.to_nat i)) as [photo|] eqn:E; [now exists photo|].
    apply nth_error_None in E. lia.
  - intros (photo & H). destruct (Z.ltb_spec i 0); [discriminate|].
    assert (N : nth_error photos (Z.to_nat i) <> None) by congruence.
    apply nth_error_Some in N. lia.
Qed.

(** X8. From an index of the photos, whatever arrows and thumbnails are
    pressed, the viewer's index stays an index of the photos: there is
    always a current photo to show, and the header counts from 1 to the
    number of photos. *)
Theorem viewer_index_valid (photos : list Photo) (presses : list ViewerPress) (i : Z) :
  validIndex photos i ->
  Forall (pressable photos) presses ->
  let j := fold_left (viewerPress photos) presses i in
  validIndex photos j /\
  (exists photo, currentPhoto photos j = Some photo) /\
  (1 <= j + 1 <= count photos)%Z.
Proof.
  intros V F.
  assert (Vj : validIndex photos (fold_left (viewerPress photos) presses i)).
  { revert i V. induction F as [|p presses P F IH]; intros i V; simpl.
    - exact V.
    - apply IH. now apply viewerPress_valid. }
  simpl. split; [exact Vj | split].
  - now apply currentPhoto_valid.
  - unfold validIndex in Vj. lia.
Qed.

Lemma viewer_index_valid_witness :
  exists photo,
    currentPhoto threePhotos
      (fold_left (viewerPress threePhotos)
         [PressArrow "next"; PressArrow "next"; PressArrow "next";
          PressThumbnail 0; PressArrow "prev"] 1%Z) = Some photo.
Proof.
  apply (viewer_index_valid threePhotos
           [PressArrow "next"; PressArrow "next"; PressArrow "next";
            PressThumbnail 0; PressArrow "prev"] 1%Z).
  - unfold validIndex, count. simpl. lia.
  - repeat constructor; simpl; lia.
Defined.

(** X9. On an index of the photos an arrow is shown exactly when pressing
    it changes the photo: "next" moves one forward iff its arrow shows,
    "prev" one back iff its arrow shows, and otherwise the index stays;
    going forward and back, or back and forward, returns to the same photo;
    any other direction does nothing. *)
Theorem arrows_move (photos : list Photo) (i : Z) :
  validIndex photos i ->
  navigatePhoto photos "next" i = (if showsNext photos i then i + 1 else i)%Z /\
  navigatePhoto photos "prev" i = (if showsPrev photos i then i - 1 else i)%Z /\
  (showsNext photos i = true ->
   navigatePhoto photos "prev" (navigatePhoto photos "next" i) = i) /\
  (showsPrev photos i = true ->
   navigatePhoto photos "next" (navigatePhoto photos "prev" i) = i) /\
  (forall direction, direction <> "next" -> direction <> "prev" ->
   navigatePhoto photos direction i = i).
Proof.
  unfold validIndex, navigatePhoto, showsNext, showsPrev. intros [H0 Hn].
  cbn [String.eqb Ascii.eqb Bool.eqb andb].
  repeat split.
  - destruct (Z.ltb_spec i (count photos - 1)), (Z.ltb_spec 1 (count photos));
      simpl; try reflexivity; lia.
  - destruct (Z.ltb_spec 0 i), (Z.ltb_spec 1 (count photos));
      simpl; try reflexivity; lia.
  - intro S. apply andb_true_iff in S as [_ S]. rewrite S.
    apply Z.ltb_lt in S.
    destruct (Z.ltb_spec 0 (i + 1)); [lia | lia].
  - intro S. apply andb_true_iff in S as [_ S]. rewrite S.
    apply Z.ltb_lt in S.
    destruct (Z.ltb_spec (i - 1) (count photos - 1)); lia.
  - intros direction N P.
    apply String.eqb_neq in N, P. now rewrite N, P.
Qed.

Lemma arrows_move_witness :
  navigatePhoto threePhotos "prev" (navigatePhoto threePhotos "next" 1%Z) = 1%Z.
Proof.
  apply (arrows_move threePhotos 1%Z).
  - unfold validIndex, count. simpl. lia.
  - reflexivity.
Defined.

(** X10. Pressing "next" [k] times from an index of the photos advances by
    [k] but stops at the last photo; pressing "prev" [k] times goes back by
    [k] but stops at the first. *)
Theorem arrows_stop_at_ends (photos : list Photo) (i : Z) (k : nat) :
  validIndex photos i ->
  Nat.iter k (navigatePhoto photos "next") i =
    Z.min (i + Z.of_nat k) (count photos - 1) /\
  Nat.iter k (navigatePhoto photos "prev") i = Z.max (i - Z.of_nat k) 0.
Proof.
  unfold validIndex. intros [H0 Hn]. induction k as [|k [IHn IHp]].
  - simpl. split; lia.
  - rewrite !Nat.iter_succ, IHn, IHp. unfold navigatePhoto.
    cbn [String.eqb Ascii.eqb Bool.eqb andb]. split.
    + destruct (Z.ltb_spec (Z.min (i + Z.of_nat k) (count photos - 1))
                           (count photos - 1)); lia.
    + destruct (Z.ltb_spec 0 (Z.max (i - Z.of_nat k) 0)); lia.
Qed.

Lemma arrows_stop_at_ends_witness :
  Nat.iter 5 (navigatePhoto threePhotos "next") 0%Z = 2%Z.
Proof.
  destruct (arrows_stop_at_ends threePhotos 0%Z 5) as [H _].
  - unfold validIndex, count. simpl. lia.
  - rewrite H. reflexivity.
Defined.

(** ** Nearby job sites *)

Lemma round_le_1000 (d : Q) : d <= 1000 -> (round d <= 1000)%Z.
Proof.
  intro H. unfold round.
  change 1000%Z with (Qfloor (1000 + (1 # 2))).
  apply Qfloor_resp_le. lra.
Qed.

Lemma round_nonneg (d : Q) : 0 <= d -> (0 <= round d)%Z.
Proof.
  intro H. unfold round.
  change 0%Z with (Qfloor 0).
  apply Qfloor_resp_le. lra.
Qed.

Lemma round_near (d : Q) :
  d - (1 # 2) < inject_Z (round d) /\ inject_Z (round d) <= d + (1 # 2).
Proof.
  unfold round. split.
  - pose proof (Qlt_floor (d + (1 # 2))) as H.
    rewrite inject_Z_plus in H. change (inject_Z 1) with 1 in H. lra.
  - apply Qfloor_le.
Qed.

Section NearbyFacts.
Context {loc : LocationService}.

Lemma considerJob_app (location : Location) (nearby : list NearbyJob) (job : JobSite) :
  considerJob location nearby job = nearby ++ considerJob location [] job.
Proof.
  unfold considerJob. destruct (site_location job) as [jl|]; simpl.
  - destruct (Qle_bool _ 1000); [reflexivity | now rewrite app_nil_r].
  - now rewrite app_nil_r.
Qed.

Lemma fold_considerJob (location : Location) (jobs : list JobSite) (nearby : list NearbyJob) :
  fold_left (considerJob location) jobs nearby =
  nearby ++ flat_map (considerJob location []) jobs.
Proof.
  revert nearby. induction jobs as [|job jobs IH]; intro nearby; simpl.
  - now rewrite app_nil_r.
  - rewrite IH, considerJob_app, <- app_assoc. reflexivity.
Qed.

Lemma considerJob_In (location : Location) (job : JobSite) (nj : NearbyJob) :
  In nj (considerJob location [] job) <->
  exists jl, site_location job = Some jl /\
             distanceTo location jl <= 1000 /\
             nj = {| nearby_job := job; distance := round (distanceTo location jl) |}.
Proof.
  unfold considerJob, distanceTo. destruct (site_location job) as [jl|]; simpl.
  - destruct (Qle_bool _ 1000) eqn:E; simpl.
    + apply Qle_bool_iff in E. split.
      * intros [<-|[]]. exists jl. auto.
      * intros (jl' & [= <-] & _ & ->). now left.
    + split; [contradiction|].
      intros (jl' & [= <-] & H & _). apply Qle_bool_iff in H. congruence.
  - split; [contradiction | intros (jl & [=] & _)].
Qed.

Lemma findNearbyJobs_In (location : Location) (jobs : list JobSite) (nj : NearbyJob) :
  In nj (findNearbyJobs location jobs) <->
  exists job jl, In job jobs /\ site_location job = Some jl /\
                 distanceTo location jl <= 1000 /\
                 nj = {| nearby_job := job; distance := round (distanceTo location jl) |}.
Proof.
  unfold findNearbyJobs. rewrite fold_considerJob. simpl.
  split.
  - intro H. apply (Permutation_in _ (sortBy_Permutation byDistance _)) in H.
    apply in_flat_map in H as (job & Hjob & H).
    apply considerJob_In in H as (jl & H). exists job, jl. tauto.
  - intros (job & jl & Hjob & H).
    apply (Permutation_in _ (Permutation_sym (sortBy_Permutation byDistance _))).
    apply in_flat_map. exists job. split; [assumption|].
    apply considerJob_In. now exists jl.
Qed.

Lemma findNearbyJobs_sorted (location : Location) (jobs : list JobSite) :
  StronglySorted (ascending distance) (findNearbyJobs location jobs).
Proof.
  unfold findNearbyJobs. apply (sortBy_sorted byDistance distance).
  intros x y _ _. reflexivity.
Qed.
End NearbyFacts.

(** X11. The nearby job sites are exactly the job sites that have a
    location at most 1000 m from the current one, each with its distance
    rounded to a whole metre: a job site without location or further away
    never appears, the distance shown is at most 1000 and within half a
    metre of the distance computed, and there are no more entries than job
    sites. *)
Theorem nearby_jobs_exact (loc : LocationService) (location : Location)
    (jobs : list JobSite) :
  (forall nj, In nj (findNearbyJobs location jobs) <->
     exists job jl, In job jobs /\ site_location job = Some jl /\
                    distanceTo location jl <= 1000 /\
                    nj = {| nearby_job := job;
                            distance := round (distanceTo location jl) |}) /\
  (forall nj, In nj (findNearbyJobs location jobs) ->
     In (nearby_job nj) jobs /\
     (distance nj <= 1000)%Z /\
     exists jl, site_location (nearby_job nj) = Some jl /\
                distanceTo location jl - (1 # 2) < inject_Z (distance nj) /\
                inject_Z (distance nj) <= distanceTo location jl + (1 # 2)) /\
  (List.length (findNearbyJobs location jobs) <= List.length jobs)%nat.
Proof.
  split; [apply findNearbyJobs_In | split].
  - intros nj H. apply findNearbyJobs_In in H as (job & jl & Hjob & Hl & Hd & ->).
    simpl. split; [assumption | split; [now apply round_le_1000|]].
    exists jl. split; [assumption | apply round_near].
  - unfold findNearbyJobs. rewrite fold_considerJob. simpl.
    rewrite (Permutation_length (sortBy_Permutation byDistance _)).
    induction jobs as [|job jobs IH]; simpl; [lia|].
    rewrite length_app.
    assert (L : (List.length (considerJob location [] job) <= 1)%nat).
    { unfold considerJob. destruct (site_location job); simpl; [|lia].
      destruct (Qle_bool _ 1000); simpl; lia. }
    lia.
Qed.

Lemma nearby_jobs_exact_witness :
  map (fun nj => (site_id (nearby_job nj), distance nj))
      (findNearbyJobs (loc := lineDistance) origin sampleSites)
  = [("e", 12%Z); ("b", 301%Z); ("d", 1000%Z)] /\
  In (site "b" "Depot" "9 Mill Lane" (Some (601 # 2)) None) sampleSites.
Proof.
  split; [vm_compute; reflexivity|].
  destruct (nearby_jobs_exact lineDistance origin sampleSites) as (_ & H & _).
  apply (H {| nearby_job := site "b" "Depot" "9 Mill Lane" (Some (601 # 2)) None;
              distance := 301 |}).
  vm_compute. auto.
Defined.

Lemma StronglySorted_app_inv {A} (R : A -> A -> Prop) (l1 l2 : list A) :
  StronglySorted R (l1 ++ l2) ->
  forall x y, In x l1 -> In y l2 -> R x y.
Proof.
  induction l1 as [|a l1 IH]; simpl; intros S x y Hx Hy; [contradiction|].
  inversion S as [|? ? S' F]; subst.
  destruct Hx as [<-|Hx].
  - rewrite Forall_forall in F. apply F, in_or_app. now right.
  - now apply IH.
Qed.

(** X12. The nearby job sites are listed by ascending rounded distance, so
    the chips, which are the first three, are at most three and none of the
    nearby job sites left out is closer than a job site shown. *)
Theorem nearest_chips (loc : LocationService) (location : Location)
    (jobs : list JobSite) :
  let nearbyJobs := findNearbyJobs location jobs in
  StronglySorted (fun a b => (distance a <= distance b)%Z) nearbyJobs /\
  (List.length (nearbyChips nearbyJobs) <= 3)%nat /\
  (forall nj, In nj (nearbyChips nearbyJobs) -> In nj nearbyJobs) /\
  (forall shown hidden,
     In shown (nearbyChips nearbyJobs) -> In hidden (skipn 3 nearbyJobs) ->
     (distance shown <= distance hidden)%Z).
Proof.
  intro nearbyJobs. pose proof (findNearbyJobs_sorted location jobs) as S.
  fold nearbyJobs in S. unfold nearbyChips.
  split; [exact S | split; [apply firstn_le_length | split]].
  - intros nj H.
    rewrite <- (firstn_skipn 3 nearbyJobs). apply in_or_app. now left.
  - rewrite <- (firstn_skipn 3 nearbyJobs) in S.
    apply (StronglySorted_app_inv _ _ _ S).
Qed.

Lemma nearest_chips_witness :
  Z.le (distance {| nearby_job := site "e" "Plant" "Dock Road East" (Some 12) None;
                    distance := 12 |})
       (distance {| nearby_job := site "d" "Quarry" "Hill Road" (Some 1000) None;
                    distance := 1000 |}).
Proof.
  apply (nearest_chips lineDistance origin (sampleSites ++ sampleSites)).
  - vm_compute. auto.
  - vm_compute. auto.
Defined.

(** ** The distance chip of a job card *)

Lemma find_first_sorted {A} (key : A -> Z) (f : A -> bool) (l : list A) (x : A) :
  StronglySorted (ascending key) l -> find f l = Some x ->
  forall y, In y l -> f y = true -> (key x <= key y)%Z.
Proof.
  induction 1 as [|a l S IH F]; simpl; intros E y Hy Fy; [contradiction|].
  destruct (f a) eqn:Fa.
  - injection E as <-. destruct Hy as [<-|Hy]; [lia|].
    rewrite Forall_forall in F. now apply F.
  - destruct Hy as [<-|Hy]; [congruence | now apply IH].
Qed.

(** X13. A job card carries the distance chip exactly when its text is not
    empty; the text is the distance of a nearby entry with the card's
    identifier followed by "m away", and, the nearby job sites being in
    ascending distance, no entry with that identifier has a smaller one.
    With the nearby job sites that [findNearbyJobs] computes, the chip
    shows exactly for the identifiers of located job sites within 1000 m. *)
Theorem distance_chip :
  (forall (nearbyJobs : list NearbyJob) (job : JobSite),
     (isNearby nearbyJobs job = true <-> getDistanceText nearbyJobs job <> "") /\
     (isNearby nearbyJobs job = true ->
      exists nj, In nj nearbyJobs /\
        site_id (nearby_job nj) = site_id job /\
        getDistanceText nearbyJobs job = (showNumber (distance nj) ++ "m away")%string /\
        (StronglySorted (ascending distance) nearbyJobs ->
         forall other, In other nearbyJobs ->
           site_id (nearby_job other) = site_id job ->
           (distance nj <= distance other)%Z))) /\
  (forall (loc : LocationService) (location : Location) (jobs : list JobSite)
          (job : JobSite),
     isNearby (findNearbyJobs location jobs) job = true <->
     exists other jl, In other jobs /\ site_id other = site_id job /\
                      site_location other = Some jl /\
                      distanceTo location jl <= 1000).
Proof.
  split.
  - intros nearbyJobs job.
    assert (N : isNearby nearbyJobs job = true ->
      exists nj, In nj nearbyJobs /\
        site_id (nearby_job nj) = site_id job /\
        getDistanceText nearbyJobs job = (showNumber (distance nj) ++ "m away")%string /\
        (StronglySorted (ascending distance) nearbyJobs ->
         forall other, In other nearbyJobs ->
           site_id (nearby_job other) = site_id job ->
           (distance nj <= distance other)%Z)).
    { unfold isNearby, getDistanceText. intro H.
      apply existsb_exists in H as (nj0 & Hin0 & Hs0).
      destruct (find (sameJob job) nearbyJobs) as [nj|] eqn:E.
      - pose proof (find_some _ _ E) as [Hin Hs].
        exists nj. split; [assumption | split; [now apply String.eqb_eq | split]].
        + reflexivity.
        + intros S other Ho Hid.
          apply (find_first_sorted distance (sameJob job) nearbyJobs nj S E other Ho).
          now apply String.eqb_eq.
      - apply (find_none _ _ E) in Hin0. congruence. }
    split; [split|exact N].
    + intro H. destruct (N H) as (nj & _ & _ & -> & _).
      destruct (showNumber (distance nj)); discriminate.
    + unfold isNearby, getDistanceText. intro H.
      destruct (find (sameJob job) nearbyJobs) as [nj|] eqn:E; [|congruence].
      apply find_some in E as [Hin Hs]. apply existsb_exists. now exists nj.
  - intros loc location jobs job. unfold isNearby.
    rewrite existsb_exists. split.
    + intros (nj & Hin & Hs). apply String.eqb_eq in Hs.
      apply findNearbyJobs_In in Hin as (other & jl & Ho & Hl & Hd & ->).
      exists other, jl. auto.
    + intros (other & jl & Ho & Hid & Hl & Hd).
      exists {| nearby_job := other; distance := round (distanceTo location jl) |}.
      split.
      * apply findNearbyJobs_In. exists other, jl. auto.
      * unfold sameJob. simpl. now apply String.eqb_eq.
Qed.

Lemma distance_chip_witness :
  getDistanceText (findNearbyJobs (loc := lineDistance) origin sampleSites)
    (site "b" "Depot" "9 Mill Lane" (Some (601 # 2)) None) = "301m away" /\
  isNearby (findNearbyJobs (loc := lineDistance) origin sampleSites)
    (site "d" "Quarry" "Hill Road" (Some 1000) None) = true.
Proof.
  destruct distance_chip as (_ & H).
  split; [vm_compute; reflexivity|].
  apply (H lineDistance origin sampleSites).
  exists (site "d" "Quarry" "Hill Road" (Some 1000) None),
         {| latitude := 0; longitude := 1000 |}.
  split; [simpl; tauto | split; [reflexivity | split; [reflexivity|]]].
  vm_compute. discriminate.
Defined.

(** ** Selecting a job and a task *)

Lemma filteredJobs_In (jobSites : list JobSite) (q : string) (job : JobSite) :
  In job (filteredJobs jobSites q) <->
  In job jobSites /\ (ContainsCI (site_name job) q \/ ContainsCI (site_address job) q).
Proof.
  unfold filteredJobs, jobMatches.
  rewrite filter_In, orb_true_iff, !includes_ContainsCI. reflexivity.
Qed.

(** X14. Starting with nothing selected, whatever cards, chips and tasks
    the screen offers are pressed, a task is selected only together with a
    job, and it is a task of a job site with the identifier of that job;
    selecting a job always clears the task; hence the selection card shows
    exactly when its Confirm button is enabled. *)
Theorem selection_invariant (jobSites : list JobSite) (nearbyJobs : list NearbyJob)
    (st : Selection) :
  reaches jobSites nearbyJobs noSelection st ->
  taskOfSelectedJob jobSites st /\
  (selectedTask st <> None -> selectedJob st <> None) /\
  (showsSelectionCard st = true <-> confirmDisabled st = false) /\
  (forall job, selectedTask (handleJobSelect job st) = None).
Proof.
  intro R.
  assert (I : taskOfSelectedJob jobSites st).
  { induction R as [|st q p R IH Off].
    - intros task H. discriminate H.
    - destruct p as [job|nj|job task]; simpl.
      + intros t H. discriminate H.
      + intros t H. discriminate H.
      + destruct Off as (Hin & Hsel & tasks & Ht & Htask).
        intros t H. simpl in H. injection H as <-.
        unfold isSelected in Hsel.
        destruct (selectedJob st) as [j|] eqn:Ej; [|discriminate].
        apply String.eqb_eq in Hsel.
        apply filteredJobs_In in Hin as [Hin _].
        exists j, job, tasks. simpl. rewrite Ej. auto. }
  assert (J : selectedTask st <> None -> selectedJob st <> None).
  { intro H. destruct (selectedTask st) as [t|] eqn:Et; [|congruence].
    destruct (I t Et) as (j & _ & _ & Hj & _). congruence. }
  split; [exact I | split; [exact J | split; [|reflexivity]]].
  unfold showsSelectionCard, confirmDisabled.
  destruct (selectedJob st) as [j|]; [tauto|].
  destruct (selectedTask st) as [t|]; [|split; congruence].
  exfalso. apply J; congruence.
Qed.

Lemma selection_invariant_witness :
  taskOfSelectedJob sampleSites
    (selectionPress
       (selectionPress noSelection
          (PressCard (site "a" "Harbour" "1 Dock Road" (Some (2401 # 2)) (Some [welding]))))
       (PressTask (site "a" "Harbour" "1 Dock Road" (Some (2401 # 2)) (Some [welding]))
                  welding)).
Proof.
  apply (selection_invariant sampleSites []).
  apply (reaches_press _ _ _ _ "dock").
  - apply (reaches_press _ _ _ _ "").
    + apply reaches_start.
    + vm_compute. auto.
  - split; [vm_compute; auto | split; [reflexivity|]].
    exists [welding]. split; [reflexivity | now left].
Defined.

(** ** Searching the job sites *)

Lemma includes_empty (s : string) : includes s "" = true.
Proof. apply includes_spec. now exists EmptyString, s. Qed.

(** X15. The job list shows, in their order, exactly the job sites whose
    name or address contains the query, case-insensitively; the empty query
    shows every job site; and a new query that contains the current one,
    case-insensitively, selects among the job sites currently shown. *)
Theorem job_search (jobSites : list JobSite) :
  (forall q job,
     In job (filteredJobs jobSites q) <->
     In job jobSites /\
     (ContainsCI (site_name job) q \/ ContainsCI (site_address job) q)) /\
  filteredJobs jobSites "" = jobSites /\
  (forall q' q, ContainsCI q' q ->
     filteredJobs jobSites q' = filteredJobs (filteredJobs jobSites q) q').
Proof.
  split; [intros q job; apply filteredJobs_In | split].
  - unfold filteredJobs, jobMatches. simpl.
    induction jobSites as [|job jobs IH]; simpl; [reflexivity|].
    rewrite includes_empty. simpl. now rewrite IH.
  - intros q' q C. unfold filteredJobs. symmetry.
    apply filter_filter_imp. intros job H. unfold jobMatches in *.
    apply orb_true_iff in H. apply orb_true_iff.
    destruct H as [H|H]; [left|right];
      apply includes_ContainsCI; apply includes_ContainsCI in H;
      exact (ContainsCI_trans _ _ _ H C).
Qed.

Lemma job_search_witness :
  filteredJobs sampleSites "dock road e" =
  filteredJobs (filteredJobs sampleSites "DOCK") "dock road e".
Proof.
  destruct (job_search sampleSites) as (_ & _ & H).
  apply H. now exists EmptyString, " road e".
Defined.

(** ** The Submit button and the status chip *)

(** X16. The Submit button of a day is enabled exactly when the day's chip
    reads Draft: a day shown as pending approval or approved cannot be
    submitted from its card. *)
Theorem submit_enabled_iff_draft (timecards : list ClockEvent) :
  submitDisabled timecards = false <-> getStatusChip timecards = Draft.
Proof.
  rewrite submitDisabled_false. unfold getStatusChip.
  destruct (existsb (hasStatus "approved") timecards) eqn:A.
  - apply existsb_hasStatus in A as (tc & Hin & Hs). split; [|discriminate].
    intro H. destruct (H tc Hin) as [_ N]. contradiction.
  - destruct (existsb (hasStatus "submitted") timecards) eqn:S.
    + apply existsb_hasStatus in S as (tc & Hin & Hs). split; [|discriminate].
      intro H. destruct (H tc Hin) as [N _]. contradiction.
    + split; [reflexivity|]. intros _ tc Hin.
      split; [now apply (proj1 (existsb_hasStatus_false _ _) S)
             | now apply (proj1 (existsb_hasStatus_false _ _) A)].
Qed.

(** ** Period and search together *)

(** X17. The period filter and the search filter commute: filtering by
    both is searching first and restricting to the period afterwards, and
    the other way round; so every event shown for the week or the month is
    also shown for "All Time" with the same query, and every event shown
    is one of the loaded events. *)
Theorem period_and_search_commute (api : DateApi) (now : Z) (p : Period)
    (q : string) (l : list ClockEvent) :
  filtered now p q l = filtered now p "" (filtered now all q l) /\
  filtered now p q l = filtered now all q (filtered now p "" l) /\
  (forall tc, In tc (filtered now p q l) -> In tc (filtered now all q l)) /\
  (forall tc, In tc (filtered now p q l) -> In tc l).
Proof.
  assert (A : filtered now p q l = filtered now p "" (filtered now all q l)).
  { rewrite !filtered_filter. simpl. rewrite filter_filter_andb.
    apply filter_ext. intro tc. now rewrite andb_true_r. }
  assert (B : filtered now p q l = filtered now all q (filtered now p "" l)).
  { rewrite !filtered_filter. simpl. rewrite filter_filter_andb.
    apply filter_ext. intro tc. rewrite andb_true_r. apply andb_comm. }
  split; [exact A | split; [exact B | split]].
  - intros tc H. rewrite A, filtered_filter in H. now apply filter_In in H.
  - intros tc H. rewrite filtered_filter in H. now apply filter_In in H.
Qed.

Lemma period_and_search_commute_witness :
  In sunday (filtered (api := utcDates) (clock 19737 10 0) all "WARE"
               (saturday :: sunday :: monday)).
Proof.
  destruct (period_and_search_commute utcDates (clock 19737 10 0) week "WARE"
              (saturday :: sunday :: monday)) as (_ & _ & H & _).
  apply H. vm_compute. auto.
Defined.

(** ** The summary of disjoint sets of days *)

Lemma sumBreakdowns_app (a b : list Summary) :
  sumBreakdowns (a ++ b) =s= addSummary (sumBreakdowns a) (sumBreakdowns b).
Proof.
  induction a as [|x a IH]; simpl.
  - rewrite addSummary_comm. symmetry. apply addSummary_initial_r.
  - rewrite IH. apply addSummary_assoc.
Qed.

Lemma bucket_app (d : string) (l1 l2 : list ClockEvent) :
  bucket d (l1 ++ l2) = bucket d l1 ++ bucket d l2.
Proof. unfold bucket. apply filter_app. Qed.

Lemma bucket_absent (d : string) (l : list ClockEvent) :
  (forall tc, In tc l -> date tc <> d) -> bucket d l = [].
Proof.
  unfold bucket. induction l as [|tc l IH]; simpl; intro H; [reflexivity|].
  destruct (String.eqb_spec (date tc) d) as [E|_].
  - exfalso. apply (H tc); auto.
  - apply IH. intros x Hx. apply H. now right.
Qed.

(** X18. The summary is additive over sets of events that share no date:
    the summary of both together is, bucket by bucket, the sum of the two
    summaries. *)
Theorem summary_additive (svc : TimeclockService) (l1 l2 : list ClockEvent) :
  (forall a b, In a l1 -> In b l2 -> date a <> date b) ->
  calculateSummary (l1 ++ l2) =s=
  addSummary (calculateSummary l1) (calculateSummary l2).
Proof.
  intro Dis.
  rewrite !calculateSummary_sumDays, !sumDays_sum, !map_map.
  set (f := fun d => classify (calculateDayHours (bucket d (l1 ++ l2)))).
  assert (P : Permutation (keys (groupByDate (l1 ++ l2)))
                          (keys (groupByDate l1) ++ keys (groupByDate l2))).
  { apply NoDup_Permutation.
    - apply groupByDate_keys_NoDup.
    - apply NoDup_app; try apply groupByDate_keys_NoDup.
      intros d H1 H2.
      apply groupByDate_keys_In in H1 as (a & Ha & <-).
      apply groupByDate_keys_In in H2 as (b & Hb & E).
      apply (Dis a b Ha Hb). congruence.
    - intro d. rewrite in_app_iff, !groupByDate_keys_In. split.
      + intros (tc & Hin & Hd). apply in_app_or in Hin as [Hin|Hin]; eauto.
      + intros [(tc & Hin & Hd)|(tc & Hin & Hd)]; exists tc;
          (split; [apply in_or_app; auto | assumption]). }
  rewrite (sumBreakdowns_Permutation _ _ (Permutation_map f P)).
  rewrite map_app, sumBreakdowns_app.
  apply addSummary_Proper; unfold f.
  - apply sumBreakdowns_pointwise. intros d Hd.
    apply groupByDate_keys_In in Hd as (a & Ha & <-).
    rewrite bucket_app, (bucket_absent (date a) l2), app_nil_r; [reflexivity|].
    intros b Hb E. now apply (Dis a b Ha Hb).
  - apply sumBreakdowns_pointwise. intros d Hd.
    apply groupByDate_keys_In in Hd as (b & Hb & <-).
    rewrite bucket_app, (bucket_absent (date b) l1); [reflexivity|].
    intros a Ha E. now apply (Dis a b Ha Hb).
Qed.

Lemma summary_additive_witness :
  calculateSummary (svc := specService) (tuesday ++ wednesday) =s=
  addSummary (calculateSummary (svc := specService) tuesday)
             (calculateSummary (svc := specService) wednesday).
Proof.
  apply (summary_additive specService).
  intros a b [<-|[<-|[]]] [<-|[<-|[]]]; discriminate.
Defined.
